(** * create_recordio_coco.py: COCO annotations to an indexed RecordIO container

    A shallow embedding of the conversion script and the properties of its
    output.  The script is a straight-line batch job: it parses an annotation
    JSON file, indexes it in four dictionaries, opens the output container
    and appends one packed record per image.

    Modelling conventions.
    - JSON numbers that the script only copies or uses as dictionary keys
      (ids, width, height, bbox coordinates) are integers [Z].
    - The parsed JSON document is typed: the three top-level keys are
      optional, the entries below them carry all their fields.
    - Unhandled Python exceptions are values of [Exception]; the interpreter
      state survives a raise, so what was written before it stays written.
    - The files read (annotation JSON, images) are a read-only environment;
      the two output files live in [disk], a finite map from paths to files.
      The output directory is taken to be writable, and no image path names
      one of the two output files.
    - [mx.recordio.pack] is an uninterpreted injective encoding of its two
      arguments; an index line holds the key and the position of the record
      in the record file, counted in records.  Buffering inside the library
      is not modelled: a record is in the file once [write_idx] returns.
    - The generator behind [random.shuffle] is a tape of raw draws, fixed by
      the seed; [shuffle] is CPython's loop of swaps. *)

From Stdlib Require Import ZArith Ascii.
From Stdlib Require Strings.Byte.
From stdpp Require Import gmap strings list pretty.

Local Open Scope string_scope.
Local Open Scope list_scope.

(** * The program *)

(** ** The annotation document *)

Record Image := mkImage {
  img_id : Z;
  img_file_name : string;
  img_width : Z;
  img_height : Z
}.

Record Annotation := mkAnnotation {
  ann_id : Z;
  ann_image_id : Z;
  ann_category_id : Z;
  ann_bbox : list Z
}.

Record Category := mkCategory {
  cat_id : Z;
  cat_name : string
}.

(** [None] is an absent top-level key. *)
Record Dataset := mkDataset {
  ds_images : option (list Image);
  ds_annotations : option (list Annotation);
  ds_categories : option (list Category)
}.

(** ** The output container *)

(** [mx.recordio.IRHeader(flag, label, id, id2)]. *)
Record IRHeader := mkIRHeader {
  hdr_flag : Z;
  hdr_label : list Z;
  hdr_id : nat;
  hdr_id2 : Z
}.

(** [mx.recordio.pack(header, s)]. *)
Inductive PackedRecord := pack (header : IRHeader) (s : list Byte.byte).

Definition packed_header (p : PackedRecord) : IRHeader :=
  match p with pack h _ => h end.
Definition packed_data (p : PackedRecord) : list Byte.byte :=
  match p with pack _ s => s end.

(** A file of the output directory: the index file holds (key, position)
    lines, the record file the packed records in the order written. *)
Inductive File :=
| IdxFile (entries : list (nat * nat))
| RecFile (records : list PackedRecord)
| RawFile (content : list Byte.byte).

(** ** Environment, exceptions, interpreter state *)

Inductive JsonFile :=
| JsonMissing
| JsonMalformed
| JsonParsed (d : Dataset).

(** What the process reads and never writes. *)
Record Env := mkEnv {
  argv : list string;
  json_files : string -> JsonFile;
  image_files : string -> option (list Byte.byte)
}.

Inductive Exception :=
| IndexError
| FileNotFoundError (path : string)
| JSONDecodeError (path : string)
| KeyError_str (key : string)
| KeyError_int (key : Z).

(** The script's module-level dictionaries, the state of [random], the
    console and the output files. *)
Record State := mkState {
  anns : gmap Z Annotation;
  imgs : gmap Z Image;
  cats : gmap Z Z;
  imgToAnns : gmap Z (list Annotation);
  rng : list nat;
  stdout : list string;
  disk : gmap string File
}.

Definition set_anns (f : gmap Z Annotation -> gmap Z Annotation) (st : State) : State :=
  mkState (f (anns st)) (imgs st) (cats st) (imgToAnns st) (rng st) (stdout st) (disk st).
Definition set_imgs (f : gmap Z Image -> gmap Z Image) (st : State) : State :=
  mkState (anns st) (f (imgs st)) (cats st) (imgToAnns st) (rng st) (stdout st) (disk st).
Definition set_cats (f : gmap Z Z -> gmap Z Z) (st : State) : State :=
  mkState (anns st) (imgs st) (f (cats st)) (imgToAnns st) (rng st) (stdout st) (disk st).
Definition set_imgToAnns
    (f : gmap Z (list Annotation) -> gmap Z (list Annotation)) (st : State) : State :=
  mkState (anns st) (imgs st) (cats st) (f (imgToAnns st)) (rng st) (stdout st) (disk st).
Definition set_rng (f : list nat -> list nat) (st : State) : State :=
  mkState (anns st) (imgs st) (cats st) (imgToAnns st) (f (rng st)) (stdout st) (disk st).
Definition set_stdout (f : list string -> list string) (st : State) : State :=
  mkState (anns st) (imgs st) (cats st) (imgToAnns st) (rng st) (f (stdout st)) (disk st).
Definition set_disk (f : gmap string File -> gmap string File) (st : State) : State :=
  mkState (anns st) (imgs st) (cats st) (imgToAnns st) (rng st) (stdout st) (f (disk st)).

(** The state a fresh interpreter starts the script in. *)
Definition initial (seed : list nat) (d : gmap string File) : State :=
  mkState ∅ ∅ ∅ ∅ seed [] d.

(** ** A state and exception monad *)

Inductive Outcome (A : Type) :=
| Ok (a : A)
| Raise (e : Exception).
Arguments Ok {A} a.
Arguments Raise {A} e.

Definition M (A : Type) : Type := State -> Outcome A * State.

Definition ret {A} (a : A) : M A := fun st => (Ok a, st).
Definition raise {A} (e : Exception) : M A := fun st => (Raise e, st).
Definition bind {A B} (m : M A) (k : A -> M B) : M B :=
  fun st =>
    match m st with
    | (Ok a, st') => k a st'
    | (Raise e, st') => (Raise e, st')
    end.
Definition modify (f : State -> State) : M unit := fun st => (Ok tt, f st).

Declare Scope py_scope.
Delimit Scope py_scope with py.
Notation "x <- m ;; k" := (bind m (fun x => k))
  (at level 100, m at next level, right associativity) : py_scope.
Notation "m ;;; k" := (bind m (fun _ => k))
  (at level 100, right associativity) : py_scope.
Local Open Scope py_scope.

(** [for x in l: body x]. *)
Fixpoint for_ {A} (l : list A) (body : A -> M unit) : M unit :=
  match l with
  | [] => ret tt
  | x :: l' => body x ;;; for_ l' body
  end.

(** A [for] loop that updates local variables [acc]. *)
Fixpoint for_acc {A B} (l : list A) (acc : B) (body : B -> A -> M B) : M B :=
  match l with
  | [] => ret acc
  | x :: l' => acc' <- body acc x ;; for_acc l' acc' body
  end.

Fixpoint enumerate_from {A} (n : nat) (l : list A) : list (nat * A) :=
  match l with
  | [] => []
  | x :: l' => (n, x) :: enumerate_from (S n) l'
  end.
Definition enumerate {A} (l : list A) : list (nat * A) := enumerate_from 0 l.

(** ** Built-ins and library calls *)

Definition print (s : string) : M unit :=
  modify (set_stdout (fun out => out ++ [s])).

(** [posixpath.join] of two components. *)
Definition starts_with_sep (s : string) : bool :=
  match s with
  | String c _ => bool_decide (c = "/"%char)
  | EmptyString => false
  end.
Fixpoint ends_with_sep (s : string) : bool :=
  match s with
  | EmptyString => false
  | String c EmptyString => bool_decide (c = "/"%char)
  | String _ s' => ends_with_sep s'
  end.
Definition path_join (a b : string) : string :=
  if starts_with_sep b then b
  else if bool_decide (a = "") || ends_with_sep a then a +:+ b
  else a +:+ "/" +:+ b.

(** [str(b)] for a bool. *)
Definition str_bool (b : bool) : string := if b then "True" else "False".

(** [random._randbelow(n)]: the generator is a tape of raw draws fixed by
    the seed; a draw is reduced modulo [n]. *)
Definition randbelow (n : nat) : M nat :=
  fun st =>
    match rng st with
    | [] => (Ok 0, st)
    | r :: g => (Ok (r mod n), set_rng (fun _ => g) st)
    end.

(** [x[i], x[j] = x[j], x[i]]. *)
Definition swap {A} (x : list A) (i j : nat) : M (list A) :=
  match x !! j, x !! i with
  | Some xj, Some xi => ret (<[j:=xi]> (<[i:=xj]> x))
  | _, _ => raise IndexError
  end.

(** [random.shuffle(x)]:
    [for i in reversed(range(1, len(x))): j = randbelow(i + 1); swap]. *)
Definition random_shuffle {A} (x : list A) : M (list A) :=
  for_acc (reverse (seq 1 (length x - 1))) x
    (fun x i => j <- randbelow (i + 1) ;; swap x i j).

(** [mx.recordio.MXIndexedRecordIO]: the handle names its two files. *)
Record MXIndexedRecordIO := mkRecordIO {
  idx_path : string;
  uri : string
}.

Definition file_entries (d : gmap string File) (p : string) : list (nat * nat) :=
  match d !! p with
  | Some (IdxFile es) => es
  | _ => []
  end.
Definition file_records (d : gmap string File) (p : string) : list PackedRecord :=
  match d !! p with
  | Some (RecFile rs) => rs
  | _ => []
  end.

(** Opening in mode ['w'] creates or truncates both files. *)
Definition MXIndexedRecordIO_open (fname_idx fname_rec : string) : M MXIndexedRecordIO :=
  modify (set_disk (fun d => <[fname_idx:=IdxFile []]> (<[fname_rec:=RecFile []]> d))) ;;;
  ret (mkRecordIO fname_idx fname_rec).

(** [record.write_idx(idx, buf)]: append the record, then its index line. *)
Definition write_idx (record : MXIndexedRecordIO) (idx : nat) (buf : PackedRecord) : M unit :=
  modify (set_disk (fun d =>
    let pos := length (file_records d (uri record)) in
    let d' := <[uri record:=RecFile (file_records d (uri record) ++ [buf])]> d in
    <[idx_path record:=IdxFile (file_entries d' (idx_path record) ++ [(idx, pos)])]> d')).

(** ** The script *)

Section Script.
Variable E : Env.

(** [sys.argv[k]]. *)
Definition argv_getitem (k : nat) : M string :=
  match argv E !! k with
  | Some a => ret a
  | None => raise IndexError
  end.

(** [json.load(open(path, 'r'))]. *)
Definition json_load (path : string) : M Dataset :=
  match json_files E path with
  | JsonParsed d => ret d
  | JsonMissing => raise (FileNotFoundError path)
  | JsonMalformed => raise (JSONDecodeError path)
  end.

(** [with open(path, 'rb') as fin: imgData = fin.read()]. *)
Definition open_read (path : string) : M (list Byte.byte) :=
  match image_files E path with
  | Some b => ret b
  | None => raise (FileNotFoundError path)
  end.

(** [imgToAnns[k]] on a [defaultdict(list)]: a missing key is inserted
    with the empty list. *)
Definition imgToAnns_getitem (k : Z) : M (list Annotation) :=
  fun st =>
    match imgToAnns st !! k with
    | Some l => (Ok l, st)
    | None => (Ok [], set_imgToAnns (insert k []) st)
    end.

(** [imgToAnns[k].append(ann)]. *)
Definition imgToAnns_append (k : Z) (ann : Annotation) : M unit :=
  l <- imgToAnns_getitem k ;;
  modify (set_imgToAnns (insert k (l ++ [ann]))).

(** [cats[k]] on a plain dict. *)
Definition cats_getitem (k : Z) : M Z :=
  fun st =>
    match cats st !! k with
    | Some v => (Ok v, st)
    | None => (Raise (KeyError_int k), st)
    end.

(** [dataset['images']]. *)
Definition dataset_getitem_images (dataset : Dataset) : M (list Image) :=
  match ds_images dataset with
  | Some l => ret l
  | None => raise (KeyError_str "images")
  end.

(** Lines 22-36: the four dictionaries. *)
Definition loader (dataset : Dataset) : M unit :=
  match ds_annotations dataset with
  | Some annotations =>
      for_ annotations (fun ann =>
        imgToAnns_append (ann_image_id ann) ann ;;;
        modify (set_anns (insert (ann_id ann) ann)))
  | None => ret tt
  end ;;;
  match ds_images dataset with
  | Some images =>
      for_ images (fun img => modify (set_imgs (insert (img_id img) img)))
  | None => ret tt
  end ;;;
  match ds_categories dataset with
  | Some categories =>
      for_ (enumerate categories) (fun ic =>
        modify (set_cats (insert (cat_id ic.2) (Z.of_nat ic.1 + 1)%Z)))
  | None => ret tt
  end.

(** Lines 55-59: the boxes and the remapped labels of one image. *)
Definition collect (group : list Annotation) : M (list (list Z) * list Z) :=
  for_acc group ([], []) (fun acc ann =>
    let bboxes := acc.1 ++ [ann_bbox ann] in
    l <- cats_getitem (ann_category_id ann) ;;
    ret (bboxes, acc.2 ++ [l])).

(** Lines 47-72: the body of the loop over the images. *)
Definition loop_body (in_img_path : string) (record : MXIndexedRecordIO)
    (i : nat) (img : Image) : M unit :=
  let filePath := img_file_name img in
  imgData <- open_read (path_join in_img_path filePath) ;;
  let imgID := img_id img in
  let imgWidth := img_width img in
  let imgHeight := img_height img in
  group <- imgToAnns_getitem imgID ;;
  bl <- collect group ;;
  let bboxes := bl.1 in
  let labels := bl.2 in
  let objNum := length bboxes in
  let mergedBboxes := foldl (fun merged bbox => merged ++ bbox) [] bboxes in
  let finalData := [imgID; imgWidth; imgHeight] ++ labels ++ mergedBboxes in
  let header := mkIRHeader 0 finalData i 0 in
  let s := pack header imgData in
  write_idx record i s ;;;
  if bool_decide (i mod 100 = 0) then print (pretty i) else ret tt.

(** Lines 38-72: open the container and write one record per image. *)
Definition create_recordio (dataset : Dataset) (in_img_path out_path : string)
    (shuffle : bool) : M unit :=
  let fname_rec := path_join out_path "coco.rec" in
  let fname_idx := path_join out_path "coco.idx" in
  record <- MXIndexedRecordIO_open fname_idx fname_rec ;;
  images <- dataset_getitem_images dataset ;;
  images <- (if shuffle then random_shuffle images else ret images) ;;
  for_ (enumerate images) (fun ii => loop_body in_img_path record ii.1 ii.2).

Definition main : M unit :=
  in_path <- argv_getitem 1 ;;
  in_img_path <- argv_getitem 2 ;;
  out_path <- argv_getitem 3 ;;
  let shuffle := bool_decide (4 < length (argv E)) in
  print ("Annotations file (with path): " +:+ in_path) ;;;
  print ("Images path (directory): " +:+ in_img_path) ;;;
  print ("Output path path (directory): " +:+ out_path) ;;;
  print ("Shuffling [True/False]: " +:+ str_bool shuffle) ;;;
  dataset <- json_load in_path ;;
  loader dataset ;;;
  create_recordio dataset in_img_path out_path shuffle.
End Script.

(** One run of the script: the arguments and input files [E], the state of
    the generator [seed], the output directory as found [d]. *)
Definition run (E : Env) (seed : list nat) (d : gmap string File) : Outcome unit * State :=
  main E (initial seed d).

(** What is left of a run outside the process: how it ended, what it
    printed, and the files. *)
Definition observe (r : Outcome unit * State) : Outcome unit * list string * gmap string File :=
  (r.1, stdout r.2, disk r.2).

(** * Vocabulary of the properties *)

(** ** What the loader leaves in the dictionaries *)

(** The value [imgToAnns[k]] would return. *)
Definition group_of (ita : gmap Z (list Annotation)) (k : Z) : list Annotation :=
  default [] (ita !! k).

(** The annotations of image [k], in annotation-list order. *)
Definition image_annotations (dataset : Dataset) (k : Z) : list Annotation :=
  filter (fun a => ann_image_id a = k) (default [] (ds_annotations dataset)).

(** The category remapping built from a fresh interpreter. *)
Definition loaded_cats (dataset : Dataset) : gmap Z Z :=
  cats (loader dataset (initial [] ∅)).2.

(** The same two dictionaries as folds, for the proofs. *)
Definition group_step (ita : gmap Z (list Annotation)) (ann : Annotation) :=
  <[ann_image_id ann := group_of ita (ann_image_id ann) ++ [ann]]> ita.
Definition remap_step (m : gmap Z Z) (ic : nat * Category) : gmap Z Z :=
  <[cat_id ic.2 := (Z.of_nat ic.1 + 1)%Z]> m.
Definition remap_from (n : nat) (categories : list Category) (m : gmap Z Z) : gmap Z Z :=
  foldl remap_step m (enumerate_from n categories).

(** ** The record-building loop as a function of what it reads *)

#[local] Arguments Nat.modulo : simpl never.
#[local] Arguments Nat.div : simpl never.

(** The labels of a group, or the [KeyError] of the first category that is
    not in the remapping. *)
Fixpoint labels_of (m : gmap Z Z) (group : list Annotation) : Outcome (list Z) :=
  match group with
  | [] => Ok []
  | ann :: group' =>
      match m !! ann_category_id ann with
      | None => Raise (KeyError_int (ann_category_id ann))
      | Some l =>
          match labels_of m group' with
          | Ok ls => Ok (l :: ls)
          | Raise e => Raise e
          end
      end
  end.

(** The numeric vector of a record. *)
Definition numeric (img : Image) (labels : list Z) (group : list Annotation) : list Z :=
  [img_id img; img_width img; img_height img] ++ labels ++ concat (ann_bbox <$> group).

(** What one iteration writes, or how it fails. *)
Definition build (E : Env) (m : gmap Z Z) (groups : Z -> list Annotation)
    (in_img_path : string) (i : nat) (img : Image) : Outcome PackedRecord :=
  match image_files E (path_join in_img_path (img_file_name img)) with
  | None => Raise (FileNotFoundError (path_join in_img_path (img_file_name img)))
  | Some imgData =>
      match labels_of m (groups (img_id img)) with
      | Raise e => Raise e
      | Ok labels =>
          Ok (pack (mkIRHeader 0 (numeric img labels (groups (img_id img))) i 0) imgData)
      end
  end.

(** The records written up to the first failing image, and that failure. *)
Fixpoint build_all (E : Env) (m : gmap Z Z) (groups : Z -> list Annotation)
    (in_img_path : string) (i : nat) (images : list Image)
    : list PackedRecord * option Exception :=
  match images with
  | [] => ([], None)
  | img :: images' =>
      match build E m groups in_img_path i img with
      | Raise e => ([], Some e)
      | Ok s =>
          let r := build_all E m groups in_img_path (S i) images' in
          (s :: r.1, r.2)
      end
  end.

Definition outcome_of (e : option Exception) : Outcome unit :=
  match e with
  | None => Ok tt
  | Some e => Raise e
  end.

(** Index lines for [n] records written under keys [i, i+1, ...] from
    position [pos] on. *)
Definition index_from (i pos n : nat) : list (nat * nat) :=
  (fun k => (i + k, pos + k)) <$> seq 0 n.

(** The progress lines of iterations [i, ..., i+n-1]. *)
Definition progress_from (i n : nat) : list string :=
  pretty <$> filter (fun k => k mod 100 = 0) (seq i n).

(** The output directory with the two files of [record] holding [es] and [rs]. *)
Definition written (d : gmap string File) (record : MXIndexedRecordIO)
    (es : list (nat * nat)) (rs : list PackedRecord) : gmap string File :=
  <[idx_path record := IdxFile es]> (<[uri record := RecFile rs]> d).

(** An image whose file can be read, and a group all of whose categories
    are in the remapping. *)
Definition readable (E : Env) (in_img_path : string) (img : Image) : Prop :=
  is_Some (image_files E (path_join in_img_path (img_file_name img))).
Definition labelled (m : gmap Z Z) (group : list Annotation) : Prop :=
  Forall (fun a => is_Some (m !! ann_category_id a)) group.

(** ** Shuffling *)

(** The pure reading of [randbelow], [swap] and [random.shuffle]. *)
Definition draw (g : list nat) (n : nat) : nat * list nat :=
  match g with
  | [] => (0, [])
  | r :: g' => (r mod n, g')
  end.

Definition swap_list {A} (x : list A) (i j : nat) : list A :=
  match x !! j, x !! i with
  | Some xj, Some xi => <[j:=xi]> (<[i:=xj]> x)
  | _, _ => x
  end.

Fixpoint shuffle_steps {A} (ixs : list nat) (x : list A) (g : list nat) : list A * list nat :=
  match ixs with
  | [] => (x, g)
  | i :: ixs' =>
      let jg := draw g (i + 1) in
      shuffle_steps ixs' (swap_list x i jg.1) jg.2
  end.

Definition shuffled {A} (g : list nat) (x : list A) : list A :=
  (shuffle_steps (reverse (seq 1 (length x - 1))) x g).1.

(** ** The run as a function of its inputs *)

(** The four lines printed before the annotation file is opened. *)
Definition banner (in_path in_img_path out_path : string) (shuffle : bool) : list string :=
  ["Annotations file (with path): " +:+ in_path;
   "Images path (directory): " +:+ in_img_path;
   "Output path path (directory): " +:+ out_path;
   "Shuffling [True/False]: " +:+ str_bool shuffle].

(** The handle on the container in [out_path]. *)
Definition container (out_path : string) : MXIndexedRecordIO :=
  mkRecordIO (path_join out_path "coco.idx") (path_join out_path "coco.rec").

(** The order in which the images are processed. *)
Definition processing_order (shuffle : bool) (seed : list nat) (images : list Image)
    : list Image :=
  if shuffle then shuffled seed images else images.

(** What lines 38-72 leave behind, from the remapping [m], the groups, the
    generator [g], the console [out] and the files [d]. *)
Definition recordio_obs (E : Env) (dataset : Dataset) (in_img_path out_path : string)
    (shuffle : bool) (m : gmap Z Z) (groups : Z -> list Annotation)
    (g : list nat) (out : list string) (d : gmap string File)
    : Outcome unit * list string * gmap string File :=
  match ds_images dataset with
  | None => (Raise (KeyError_str "images"), out, written d (container out_path) [] [])
  | Some images =>
      let r := build_all E m groups in_img_path 0 (processing_order shuffle g images) in
      (outcome_of r.2, out ++ progress_from 0 (length r.1),
       written d (container out_path) (index_from 0 0 (length r.1)) r.1)
  end.

(** ** The output of a run *)

(** The records of [coco.rec] and the lines of [coco.idx] after a run. *)
Definition output_records (E : Env) (seed : list nat) (d : gmap string File)
    (out_path : string) : list PackedRecord :=
  file_records (disk (run E seed d).2) (path_join out_path "coco.rec").
Definition output_index (E : Env) (seed : list nat) (d : gmap string File)
    (out_path : string) : list (nat * nat) :=
  file_entries (disk (run E seed d).2) (path_join out_path "coco.idx").

(** [s] is the record of image [img] written at position [i]: header
    [IRHeader(0, finalData, i, 0)] packed with the bytes of the image file. *)
Definition record_of (E : Env) (dataset : Dataset) (in_img_path : string)
    (i : nat) (img : Image) (s : PackedRecord) : Prop :=
  exists imgData labels,
    image_files E (path_join in_img_path (img_file_name img)) = Some imgData /\
    Forall2 (fun a l => loaded_cats dataset !! ann_category_id a = Some l)
            (image_annotations dataset (img_id img)) labels /\
    s = pack (mkIRHeader 0
                ([img_id img; img_width img; img_height img] ++ labels ++
                 concat (ann_bbox <$> image_annotations dataset (img_id img)))
                i 0) imgData.

(** Whether the script's variable [shuffle] is set. *)
Definition shuffle_flag (E : Env) : bool := bool_decide (4 < length (argv E)).

(** ** The category remapping *)

(** [m] maps the ids [ids] one-to-one onto the labels [1..K]. *)
Definition bijection_onto (m : gmap Z Z) (ids : list Z) (K : nat) : Prop :=
  (forall c, c ∈ ids <-> is_Some (m !! c)) /\
  (forall c l, m !! c = Some l -> (1 <= l <= Z.of_nat K)%Z) /\
  (forall l, (1 <= l <= Z.of_nat K)%Z -> exists c, m !! c = Some l) /\
  (forall c1 c2 l, m !! c1 = Some l -> m !! c2 = Some l -> c1 = c2).

(** The distinct elements of [ids] in order of first appearance. *)
Fixpoint first_seen (seen ids : list Z) : list Z :=
  match ids with
  | [] => []
  | c :: ids' =>
      if decide (c ∈ seen) then first_seen seen ids'
      else c :: first_seen (c :: seen) ids'
  end.

(** The [j]-th distinct id gets the label [j+1]. *)
Definition dense_first_seen (m : gmap Z Z) (ids : list Z) : Prop :=
  forall j c, first_seen [] ids !! j = Some c -> m !! c = Some (Z.of_nat j + 1)%Z.

(** ** One index entry and one record per image *)

(** An input on which no iteration can fail. *)
Definition buildable (E : Env) (dataset : Dataset) (in_img_path : string)
    (img : Image) : Prop :=
  readable E in_img_path img /\
  labelled (loaded_cats dataset) (image_annotations dataset (img_id img)).

(** ** Annotations and dictionaries that are never consumed *)

(** The document without the annotation at position [n]. *)
Definition remove_annotation (n : nat) (dataset : Dataset) : Dataset :=
  mkDataset (ds_images dataset) (delete n <$> ds_annotations dataset) (ds_categories dataset).

(** ** Shuffling the images *)

(** What a record holds apart from its position: the numeric vector and
    the image bytes. *)
Definition contents (s : PackedRecord) : list Z * list Byte.byte :=
  (hdr_label (packed_header s), packed_data s).

Definition payload (E : Env) (m : gmap Z Z) (groups : Z -> list Annotation)
    (in_img_path : string) (img : Image) : option (list Z * list Byte.byte) :=
  match build E m groups in_img_path 0 img with
  | Ok s => Some (contents s)
  | Raise _ => None
  end.

(** The same invocation without a 4th argument. *)
Definition without_shuffle (E : Env) : Env :=
  mkEnv (take 4 (argv E)) (json_files E) (image_files E).

(** The document with another images list. *)
Definition with_images (images : list Image) (dataset : Dataset) : Dataset :=
  mkDataset (Some images) (ds_annotations dataset) (ds_categories dataset).

(** * Example inputs *)

Module Example.
Definition a_jpg : list Byte.byte := [Byte.xff; Byte.xd8; Byte.xff].
Definition dataset : Dataset :=
  mkDataset (Some [mkImage 1 "a.jpg" 10 20])
            (Some [mkAnnotation 1 1 5 [1; 2; 3; 4]%Z])
            (Some [mkCategory 5 "x"]).
Definition env : Env :=
  mkEnv ["create_recordio_coco.py"; "ann.json"; "img"; "out"]
        (fun p => if bool_decide (p = "ann.json") then JsonParsed dataset else JsonMissing)
        (fun p => if bool_decide (p = "img/a.jpg") then Some a_jpg else None).
End Example.

(** An annotation file without the key "images". *)
Module NoImages.
Definition dataset : Dataset := mkDataset None (Some []) (Some []).
Definition env : Env :=
  mkEnv ["create_recordio_coco.py"; "ann.json"; "img"; "out"]
        (fun p => if bool_decide (p = "ann.json") then JsonParsed dataset else JsonMissing)
        (fun _ => None).
End NoImages.

(** A category list in which an id comes twice. *)
Module RepeatedCategory.
Definition dataset : Dataset :=
  mkDataset (Some []) (Some []) (Some [mkCategory 5 "x"; mkCategory 5 "y"]).
End RepeatedCategory.

(** Two images, the file of the second is not there. *)
Module MissingImage.
Definition dataset : Dataset :=
  mkDataset (Some [mkImage 1 "a.jpg" 10 20; mkImage 2 "b.jpg" 30 40])
            (Some [mkAnnotation 1 1 5 [1; 2; 3; 4]%Z])
            (Some [mkCategory 5 "x"]).
Definition env : Env :=
  mkEnv ["create_recordio_coco.py"; "ann.json"; "img"; "out"]
        (fun p => if bool_decide (p = "ann.json") then JsonParsed dataset else JsonMissing)
        (image_files Example.env).
End MissingImage.

(** Two images, the annotation of the second has a category that is not in
    the category list. *)
Module UnknownCategory.
Definition dataset : Dataset :=
  mkDataset (Some [mkImage 1 "a.jpg" 10 20; mkImage 2 "a.jpg" 10 20])
            (Some [mkAnnotation 1 1 5 [1; 2; 3; 4]%Z; mkAnnotation 2 2 7 [5; 6; 7; 8]%Z])
            (Some [mkCategory 5 "x"]).
Definition env : Env :=
  mkEnv ["create_recordio_coco.py"; "ann.json"; "img"; "out"]
        (fun p => if bool_decide (p = "ann.json") then JsonParsed dataset else JsonMissing)
        (image_files Example.env).
End UnknownCategory.

(** An annotation of an image that is not in the images list. *)
Module DanglingAnnotation.
Definition dataset : Dataset :=
  mkDataset (Some [mkImage 1 "a.jpg" 10 20])
            (Some [mkAnnotation 1 1 5 [1; 2; 3; 4]%Z; mkAnnotation 2 99 5 [5; 6; 7; 8]%Z])
            (Some [mkCategory 5 "x"]).
Definition env (dataset : Dataset) : Env :=
  mkEnv ["create_recordio_coco.py"; "ann.json"; "img"; "out"]
        (fun p => if bool_decide (p = "ann.json") then JsonParsed dataset else JsonMissing)
        (image_files Example.env).
End DanglingAnnotation.

(** Two entries of the images list with the same id. *)
Module DuplicateId.
Definition b_jpg : list Byte.byte := [Byte.x42].
Definition dataset : Dataset :=
  mkDataset (Some [mkImage 1 "a.jpg" 10 20; mkImage 1 "b.jpg" 30 40])
            (Some [mkAnnotation 1 1 5 [1; 2; 3; 4]%Z])
            (Some [mkCategory 5 "x"]).
Definition env : Env :=
  mkEnv ["create_recordio_coco.py"; "ann.json"; "img"; "out"]
        (fun p => if bool_decide (p = "ann.json") then JsonParsed dataset else JsonMissing)
        (fun p => if bool_decide (p = "img/a.jpg") then Some Example.a_jpg
                  else if bool_decide (p = "img/b.jpg") then Some b_jpg else None).
End DuplicateId.

(** Two images without annotations, run without and with a 4th argument. *)
Module ShuffleTwo.
Definition dataset : Dataset :=
  mkDataset (Some [mkImage 1 "a.jpg" 10 20; mkImage 2 "b.jpg" 30 40]) (Some []) (Some []).
Definition env (args : list string) : Env :=
  mkEnv (["create_recordio_coco.py"; "ann.json"; "img"; "out"] ++ args)
        (fun p => if bool_decide (p = "ann.json") then JsonParsed dataset else JsonMissing)
        (image_files DuplicateId.env).
End ShuffleTwo.

(** Two images, the file of the second is not there, run without and with
    a 4th argument. *)
Module ShuffleMissing.
Definition env (args : list string) : Env :=
  mkEnv (["create_recordio_coco.py"; "ann.json"; "img"; "out"] ++ args)
        (json_files MissingImage.env) (image_files MissingImage.env).
End ShuffleMissing.

(** * Vocabulary of the further properties *)

(** What a run leaves behind, case by case: too few arguments, an
    annotation file that cannot be parsed, a parsed document. *)
Definition run_obs (E : Env) (seed : list nat) (d : gmap string File)
    : Outcome unit * list string * gmap string File :=
  match argv E with
  | _ :: in_path :: in_img_path :: out_path :: _ =>
      match json_files E in_path with
      | JsonParsed dataset =>
          recordio_obs E dataset in_img_path out_path (shuffle_flag E)
            (loaded_cats dataset) (image_annotations dataset) seed
            (banner in_path in_img_path out_path (shuffle_flag E)) d
      | JsonMissing =>
          (Raise (FileNotFoundError in_path),
           banner in_path in_img_path out_path (shuffle_flag E), d)
      | JsonMalformed =>
          (Raise (JSONDecodeError in_path),
           banner in_path in_img_path out_path (shuffle_flag E), d)
      end
  | _ => (Raise IndexError, [], d)
  end.

(** * Properties *)

(** ** The monad and the loops *)

Lemma bind_unfold {A B} (m : M A) (k : A -> M B) st :
  bind m k st =
  match m st with
  | (Ok a, st') => k a st'
  | (Raise e, st') => (Raise e, st')
  end.
Proof. reflexivity. Qed.

Lemma bind_ret {A B} (a : A) (k : A -> M B) st : bind (ret a) k st = k a st.
Proof. reflexivity. Qed.

(** Run the leading [ret]s of a computation. *)
Ltac run_rets := repeat (rewrite bind_ret; cbv beta zeta).

Lemma bind_ok {A B} (m : M A) (k : A -> M B) st a st' :
  m st = (Ok a, st') -> bind m k st = k a st'.
Proof. intros H. by rewrite bind_unfold, H. Qed.

Lemma bind_raise {A B} (m : M A) (k : A -> M B) st e st' :
  m st = (Raise e, st') -> bind m k st = (Raise e, st').
Proof. intros H. by rewrite bind_unfold, H. Qed.

Lemma bind_ok_eq {A B} (m : M A) (k : A -> M B) st a st' r :
  m st = (Ok a, st') -> k a st' = r -> bind m k st = r.
Proof. intros H <-. by apply bind_ok. Qed.

(** A loop of pure state updates is a fold. *)
Lemma for_modify {A} (l : list A) (f : A -> State -> State) st :
  for_ l (fun x => modify (f x)) st = (Ok tt, foldl (fun s x => f x s) st l).
Proof. revert st. induction l as [|x l IH]; intros st; simpl; [done|apply IH]. Qed.

Lemma for_ext {A} (l : list A) (body1 body2 : A -> M unit) st :
  (forall x s, body1 x s = body2 x s) ->
  for_ l body1 st = for_ l body2 st.
Proof.
  intros Hb. revert st. induction l as [|x l IH]; intros st; simpl; [done|].
  rewrite !bind_unfold, Hb. destruct (body2 x st) as [[[]|e] st']; auto.
Qed.

Lemma foldl_proj {A S T} (proj : S -> T) (f : A -> S -> S) (g : T -> A -> T) l st :
  (forall x s, proj (f x s) = g (proj s) x) ->
  proj (foldl (fun s x => f x s) st l) = foldl g (proj st) l.
Proof.
  intros Hf. revert st. induction l as [|x l IH]; intros st; simpl; [done|].
  by rewrite IH, Hf.
Qed.

Lemma foldl_frame {A S T} (proj : S -> T) (f : A -> S -> S) l st :
  (forall x s, proj (f x s) = proj s) ->
  proj (foldl (fun s x => f x s) st l) = proj st.
Proof.
  intros Hf. rewrite (foldl_proj proj f (fun t _ => t)) by done.
  generalize (proj st). induction l; simpl; auto.
Qed.

Lemma enumerate_from_app {A} (l1 l2 : list A) n :
  enumerate_from n (l1 ++ l2) =
  enumerate_from n l1 ++ enumerate_from (n + length l1) l2.
Proof.
  revert n. induction l1 as [|x l1 IH]; intros n; simpl.
  - by rewrite Nat.add_0_r.
  - rewrite IH. do 3 f_equal. lia.
Qed.

(** ** The loader *)

Lemma imgToAnns_getitem_eq k st :
  exists st', imgToAnns_getitem k st = (Ok (group_of (imgToAnns st) k), st') /\
    anns st' = anns st /\ imgs st' = imgs st /\ cats st' = cats st /\
    rng st' = rng st /\ stdout st' = stdout st /\ disk st' = disk st /\
    forall k', group_of (imgToAnns st') k' = group_of (imgToAnns st) k'.
Proof.
  unfold imgToAnns_getitem, group_of.
  destruct (imgToAnns st !! k) as [l|] eqn:Hk; eexists; (split; [reflexivity|]);
    simpl; repeat split; try done.
  intros k'. destruct (decide (k = k')) as [->|Hne].
  - by rewrite lookup_insert_eq, Hk.
  - by rewrite lookup_insert_ne.
Qed.

Lemma imgToAnns_append_eq ann st :
  imgToAnns_append (ann_image_id ann) ann st =
  (Ok tt, set_imgToAnns (fun ita => group_step ita ann) st).
Proof.
  unfold imgToAnns_append, imgToAnns_getitem, group_step, group_of, bind, modify.
  destruct st as [a i c ita g o d]; simpl.
  unfold set_imgToAnns; simpl.
  destruct (ita !! ann_image_id ann) as [l|] eqn:Hk; simpl; [done|].
  by rewrite insert_insert_eq.
Qed.

Lemma group_of_step ita ann k :
  group_of (group_step ita ann) k =
  group_of ita k ++ (if decide (ann_image_id ann = k) then [ann] else []).
Proof.
  unfold group_step, group_of at 1. destruct (decide (ann_image_id ann = k)) as [->|Hne].
  - by rewrite lookup_insert_eq.
  - rewrite lookup_insert_ne by done. by rewrite app_nil_r.
Qed.

Lemma group_of_foldl annotations ita k :
  group_of (foldl group_step ita annotations) k =
  group_of ita k ++ filter (fun a => ann_image_id a = k) annotations.
Proof.
  revert ita. induction annotations as [|a l IH]; intros ita; simpl.
  - by rewrite app_nil_r.
  - rewrite IH, group_of_step, filter_cons.
    destruct (decide (ann_image_id a = k)); simpl; [by rewrite <- app_assoc|].
    by rewrite app_nil_r.
Qed.

(** The loader never raises; it leaves the generator, the console and the
    files alone. *)
Lemma loader_spec dataset st :
  exists st', loader dataset st = (Ok tt, st') /\
    cats st' = remap_from 0 (default [] (ds_categories dataset)) (cats st) /\
    imgToAnns st' = foldl group_step (imgToAnns st) (default [] (ds_annotations dataset)) /\
    rng st' = rng st /\ stdout st' = stdout st /\ disk st' = disk st.
Proof.
  unfold loader.
  set (st1 := foldl (fun s ann =>
    set_anns (insert (ann_id ann) ann) (set_imgToAnns (fun ita => group_step ita ann) s))
    st (default [] (ds_annotations dataset))).
  assert (H1 : match ds_annotations dataset with
               | Some annotations =>
                   for_ annotations (fun ann =>
                     imgToAnns_append (ann_image_id ann) ann ;;;
                     modify (set_anns (insert (ann_id ann) ann)))
               | None => ret tt
               end st = (Ok tt, st1)).
  { subst st1. destruct (ds_annotations dataset) as [l|]; simpl; [|done].
    rewrite <- (for_modify l (fun ann s =>
      set_anns (insert (ann_id ann) ann) (set_imgToAnns (fun ita => group_step ita ann) s))).
    apply for_ext. intros x s. by rewrite bind_unfold, imgToAnns_append_eq. }
  rewrite bind_unfold, H1.
  set (st2 := foldl (fun s img => set_imgs (insert (img_id img) img) s) st1
                (default [] (ds_images dataset))).
  assert (H2 : match ds_images dataset with
               | Some images =>
                   for_ images (fun img => modify (set_imgs (insert (img_id img) img)))
               | None => ret tt
               end st1 = (Ok tt, st2)).
  { subst st2. destruct (ds_images dataset) as [l|]; simpl; [|done]. by rewrite for_modify. }
  rewrite bind_unfold, H2.
  set (st3 := foldl (fun s ic => set_cats (fun m => remap_step m ic) s) st2
                (enumerate (default [] (ds_categories dataset)))).
  assert (H3 : match ds_categories dataset with
               | Some categories =>
                   for_ (enumerate categories) (fun ic =>
                     modify (set_cats (insert (cat_id ic.2) (Z.of_nat ic.1 + 1)%Z)))
               | None => ret tt
               end st2 = (Ok tt, st3)).
  { subst st3. destruct (ds_categories dataset) as [l|]; simpl; [|done].
    by rewrite for_modify. }
  rewrite H3. exists st3. split; [done|].
  subst st3 st2 st1. repeat split.
  - rewrite (foldl_proj cats (fun ic => set_cats (fun m => remap_step m ic)) remap_step) by done.
    unfold remap_from, enumerate. f_equal.
    rewrite (foldl_frame cats) by done. by rewrite (foldl_frame cats).
  - rewrite (foldl_frame imgToAnns) by done. rewrite (foldl_frame imgToAnns) by done.
    by rewrite (foldl_proj imgToAnns _ group_step).
  - rewrite !(foldl_frame rng); done.
  - rewrite !(foldl_frame stdout); done.
  - rewrite !(foldl_frame disk); done.
Qed.

Lemma loaded_cats_eq dataset :
  loaded_cats dataset = remap_from 0 (default [] (ds_categories dataset)) ∅.
Proof.
  unfold loaded_cats. destruct (loader_spec dataset (initial [] ∅)) as (st' & -> & Hc & _).
  apply Hc.
Qed.

(** The loader's three guards: an absent key is the empty list. *)
Lemma loader_absent_as_empty dataset st :
  loader dataset st =
  loader (mkDataset (Some (default [] (ds_images dataset)))
                    (Some (default [] (ds_annotations dataset)))
                    (Some (default [] (ds_categories dataset)))) st.
Proof.
  unfold loader. by destruct dataset as [[?|] [?|] [?|]].
Qed.

Lemma remap_from_snoc n categories cat m :
  remap_from n (categories ++ [cat]) m =
  <[cat_id cat := (Z.of_nat (n + length categories) + 1)%Z]> (remap_from n categories m).
Proof.
  unfold remap_from. by rewrite enumerate_from_app, foldl_app.
Qed.

Lemma remap_from_lookup_Some n categories m c l :
  remap_from n categories m !! c = Some l ->
  (exists i cat, categories !! i = Some cat /\ cat_id cat = c /\
     l = (Z.of_nat (n + i) + 1)%Z) \/
  (c ∉ cat_id <$> categories) /\ m !! c = Some l.
Proof.
  revert l. induction categories as [|cat categories IH] using rev_ind; intros l.
  - intros Hl. right. split; [|done]. simpl. apply not_elem_of_nil.
  - rewrite remap_from_snoc. destruct (decide (cat_id cat = c)) as [<-|Hne].
    + rewrite lookup_insert_eq. intros [= <-]. left.
      exists (length categories), cat. by rewrite list_lookup_middle.
    + rewrite lookup_insert_ne by done. intros [(i & cat' & Hi & Hc & Hl)|[Hnin Hm]]%IH.
      * left. exists i, cat'. split; [|done]. by apply lookup_app_l_Some.
      * right. split; [|done]. rewrite fmap_app. simpl.
        intros [?|Hin%list_elem_of_singleton]%elem_of_app; [done|]. by destruct Hne.
Qed.

Lemma remap_from_lookup_NoDup n categories m i cat :
  NoDup (cat_id <$> categories) ->
  categories !! i = Some cat ->
  remap_from n categories m !! cat_id cat = Some (Z.of_nat (n + i) + 1)%Z.
Proof.
  revert i. induction categories as [|cat' categories IH] using rev_ind; intros i Hnd Hi.
  - done.
  - rewrite remap_from_snoc. rewrite fmap_app in Hnd. apply NoDup_app in Hnd as (Hnd & Hdis & _).
    apply lookup_app_Some in Hi as [Hi|[Hge Hi]].
    + rewrite lookup_insert_ne; [by apply IH|].
      intros Heq. apply (Hdis (cat_id cat)).
      * apply list_elem_of_fmap. exists cat. split; [done|]. by eapply list_elem_of_lookup_2.
      * rewrite <- Heq. simpl. by left.
    + destruct (i - length categories) as [|k] eqn:Hk; simpl in Hi; [|done].
      injection Hi as <-. rewrite lookup_insert_eq. do 3 f_equal. lia.
Qed.

Lemma loaded_cats_None dataset c :
  c ∉ (cat_id <$> default [] (ds_categories dataset)) <-> loaded_cats dataset !! c = None.
Proof.
  rewrite loaded_cats_eq. split.
  - intros Hnin. destruct (remap_from 0 _ ∅ !! c) as [l|] eqn:Hl; [|done].
    apply remap_from_lookup_Some in Hl as [(i & cat & Hi & <- & _)|[_ ?]]; [|done].
    destruct Hnin. apply list_elem_of_fmap. exists cat. split; [done|].
    by eapply list_elem_of_lookup_2.
  - intros Hnone (cat & -> & Hin)%list_elem_of_fmap.
    induction (default [] (ds_categories dataset)) as [|cat' cs IH] using rev_ind.
    + by apply elem_of_nil in Hin.
    + rewrite remap_from_snoc in Hnone. apply lookup_insert_None in Hnone as [Hnone Hne].
      apply elem_of_app in Hin as [Hin|Hin%list_elem_of_singleton]; [by apply IH|].
      by subst.
Qed.

Lemma first_seen_NoDup seen ids :
  NoDup ids -> (forall c, c ∈ ids -> c ∉ seen) -> first_seen seen ids = ids.
Proof.
  revert seen. induction ids as [|c ids IH]; intros seen Hnd Hdis; simpl; [done|].
  apply NoDup_cons in Hnd as [Hc Hnd].
  rewrite decide_False by (apply Hdis; by left). f_equal. apply IH; [done|].
  intros c' Hc' [->|Hin]%elem_of_cons; [done|]. apply (Hdis c'); [by right|done].
Qed.

Lemma filter_delete_neg {A} (P : A -> Prop) `{forall x, Decision (P x)} (l : list A) n x :
  l !! n = Some x -> ~ P x -> filter P (delete n l) = filter P l.
Proof.
  intros Hn HP. rewrite <- (take_drop_middle l n x Hn) at 2.
  rewrite delete_take_drop, !filter_app, filter_cons_False by done. done.
Qed.

Lemma loaded_cats_remove_annotation n dataset :
  loaded_cats (remove_annotation n dataset) = loaded_cats dataset.
Proof. by rewrite !loaded_cats_eq. Qed.

Lemma image_annotations_remove_annotation n dataset ann k :
  default [] (ds_annotations dataset) !! n = Some ann ->
  ann_image_id ann ≠ k ->
  image_annotations (remove_annotation n dataset) k = image_annotations dataset k.
Proof.
  unfold image_annotations, remove_annotation. simpl.
  destruct (ds_annotations dataset) as [l|]; simpl; [|done].
  intros Hn Hk. by apply (filter_delete_neg _ l n ann).
Qed.

(** ** The container files *)

Lemma written_entries d record es rs :
  file_entries (written d record es rs) (idx_path record) = es.
Proof. unfold file_entries, written. by rewrite lookup_insert_eq. Qed.

Lemma written_records d record es rs :
  idx_path record ≠ uri record ->
  file_records (written d record es rs) (uri record) = rs.
Proof.
  intros Hne. unfold file_records, written.
  rewrite lookup_insert_ne by done. by rewrite lookup_insert_eq.
Qed.

Lemma written_written d record es rs es' rs' :
  idx_path record ≠ uri record ->
  <[idx_path record := IdxFile es']>
    (<[uri record := RecFile rs']> (written d record es rs)) =
  written d record es' rs'.
Proof.
  intros Hne. unfold written. apply map_eq. intros p.
  destruct (decide (p = idx_path record)) as [->|H1].
  - by rewrite !lookup_insert_eq.
  - rewrite !(lookup_insert_ne _ (idx_path record)) by done.
    destruct (decide (p = uri record)) as [->|H2].
    + by rewrite !lookup_insert_eq.
    + by rewrite !lookup_insert_ne.
Qed.

Lemma write_idx_written record i s st d es rs :
  idx_path record ≠ uri record ->
  disk st = written d record es rs ->
  exists st', write_idx record i s st = (Ok tt, st') /\
    anns st' = anns st /\ imgs st' = imgs st /\ cats st' = cats st /\
    imgToAnns st' = imgToAnns st /\ rng st' = rng st /\ stdout st' = stdout st /\
    disk st' = written d record (es ++ [(i, length rs)]) (rs ++ [s]).
Proof.
  intros Hne Hd. eexists. split; [reflexivity|]. simpl. repeat split.
  rewrite Hd, written_records by done.
  assert (He : file_entries
    (<[uri record := RecFile (rs ++ [s])]> (written d record es rs)) (idx_path record) = es).
  { unfold file_entries. rewrite lookup_insert_ne by done. apply written_entries. }
  rewrite He. by apply written_written.
Qed.

Lemma container_paths_ne out_path :
  idx_path (container out_path) ≠ uri (container out_path).
Proof.
  unfold container, path_join. simpl.
  destruct (bool_decide (out_path = "") || ends_with_sep out_path); intros H.
  - by apply (inj (String.app out_path)) in H.
  - apply (inj (String.app out_path)) in H. done.
Qed.

Lemma index_from_S i pos n :
  index_from i pos (S n) = (i, pos) :: index_from (S i) (S pos) n.
Proof.
  unfold index_from. simpl. rewrite !Nat.add_0_r. f_equal.
  rewrite <- fmap_S_seq, <- list_fmap_compose. apply list_fmap_ext.
  intros _ k _. simpl. f_equal; lia.
Qed.

Lemma index_from_lookup i pos n k :
  k < n -> index_from i pos n !! k = Some (i + k, pos + k).
Proof.
  intros Hk. unfold index_from. rewrite list_lookup_fmap, lookup_seq_lt by done. done.
Qed.

Lemma index_from_length i pos n : length (index_from i pos n) = n.
Proof. unfold index_from. by rewrite length_fmap, length_seq. Qed.

Lemma index_from_keys i pos n e : e ∈ index_from i pos n -> i <= e.1 < i + n.
Proof.
  unfold index_from. intros (k & -> & Hk)%list_elem_of_fmap.
  apply elem_of_seq in Hk. simpl. lia.
Qed.

Lemma progress_from_one i :
  progress_from i 1 = if bool_decide (i mod 100 = 0) then [pretty i] else [].
Proof.
  unfold progress_from. cbn [seq]. rewrite filter_cons, filter_nil.
  case_bool_decide; by rewrite ?decide_True, ?decide_False by done.
Qed.

Lemma progress_from_S i n :
  progress_from i (S n) = progress_from i 1 ++ progress_from (S i) n.
Proof.
  unfold progress_from. cbn [seq]. rewrite !filter_cons, filter_nil.
  destruct (decide (i mod 100 = 0)); reflexivity.
Qed.

(** ** One iteration, and the loop *)

Lemma foldl_merge (bboxes : list (list Z)) acc :
  foldl (fun merged bbox => merged ++ bbox) acc bboxes = acc ++ concat bboxes.
Proof.
  revert acc. induction bboxes as [|b l IH]; intros acc; simpl.
  - by rewrite app_nil_r.
  - by rewrite IH, app_assoc.
Qed.

Lemma for_acc_collect group acc st :
  for_acc group acc (fun acc ann =>
      let bboxes := acc.1 ++ [ann_bbox ann] in
      l <- cats_getitem (ann_category_id ann) ;;
      ret (bboxes, acc.2 ++ [l])) st =
  (match labels_of (cats st) group with
   | Ok ls => Ok (acc.1 ++ (ann_bbox <$> group), acc.2 ++ ls)
   | Raise e => Raise e
   end, st).
Proof.
  revert acc. induction group as [|a g IH]; intros [bs ls]; simpl.
  - by rewrite !app_nil_r.
  - rewrite !bind_unfold. unfold cats_getitem.
    destruct (cats st !! ann_category_id a) as [l|]; [|done].
    unfold ret. rewrite IH. simpl.
    destruct (labels_of (cats st) g); [|done]. by rewrite <- !app_assoc.
Qed.

Lemma collect_eq group st :
  collect group st =
  (match labels_of (cats st) group with
   | Ok ls => Ok (ann_bbox <$> group, ls)
   | Raise e => Raise e
   end, st).
Proof. unfold collect. by rewrite for_acc_collect. Qed.

(** One iteration. *)
Lemma loop_body_spec E groups in_img_path record i img st d es rs :
  idx_path record ≠ uri record ->
  (forall k, group_of (imgToAnns st) k = groups k) ->
  disk st = written d record es rs ->
  exists st',
    loop_body E in_img_path record i img st =
      (match build E (cats st) groups in_img_path i img with
       | Ok _ => Ok tt
       | Raise e => Raise e
       end, st') /\
    cats st' = cats st /\ rng st' = rng st /\
    (forall k, group_of (imgToAnns st') k = groups k) /\
    match build E (cats st) groups in_img_path i img with
    | Ok s =>
        stdout st' = stdout st ++ progress_from i 1 /\
        disk st' = written d record (es ++ [(i, length rs)]) (rs ++ [s])
    | Raise _ => stdout st' = stdout st /\ disk st' = disk st
    end.
Proof.
  intros Hne Hg Hd. unfold loop_body, build, open_read.
  destruct (image_files E (path_join in_img_path (img_file_name img))) as [imgData|].
  2:{ exists st. unfold raise. rewrite bind_unfold. repeat split; done. }
  run_rets.
  destruct (imgToAnns_getitem_eq (img_id img) st)
    as (st1 & Hget & _ & _ & Hc1 & Hr1 & Ho1 & Hd1 & Hg1).
  rewrite (bind_ok _ _ _ _ _ Hget), Hg.
  pose proof (collect_eq (groups (img_id img)) st1) as Hcol. rewrite Hc1 in Hcol.
  destruct (labels_of (cats st) (groups (img_id img))) as [labels|e].
  2:{ rewrite (bind_raise _ _ _ _ _ Hcol).
      exists st1. repeat split; try done. intros k. by rewrite Hg1. }
  rewrite (bind_ok _ _ _ _ _ Hcol). cbv beta zeta. cbn [fst snd].
  rewrite foldl_merge, app_nil_l.
  destruct (write_idx_written record i
    (pack (mkIRHeader 0 (numeric img labels (groups (img_id img))) i 0) imgData)
    st1 d es rs Hne) as (st2 & Hw & _ & _ & Hc2 & Hi2 & Hr2 & Ho2 & Hd2);
    [by rewrite Hd1|].
  unfold numeric in *. rewrite (bind_ok _ _ _ _ _ Hw), progress_from_one.
  case_bool_decide.
  - eexists. split; [reflexivity|]. cbn [print modify set_stdout snd cats rng imgToAnns stdout disk].
    split_and!; [congruence|congruence| |by rewrite Ho2, Ho1|done].
    intros k. rewrite Hi2. by rewrite Hg1.
  - exists st2. split; [reflexivity|].
    split_and!; [congruence|congruence| |by rewrite Ho2, Ho1, app_nil_r|done].
    intros k. rewrite Hi2. by rewrite Hg1.
Qed.

(** The whole loop: the outcome, the console and the files after it are
    what [build_all] computes. *)
Lemma loop_spec E groups in_img_path record images :
  idx_path record ≠ uri record ->
  forall i st d es rs,
  (forall k, group_of (imgToAnns st) k = groups k) ->
  disk st = written d record es rs ->
  length rs = length es ->
  let r := build_all E (cats st) groups in_img_path i images in
  exists st',
    for_ (enumerate_from i images)
      (fun ii => loop_body E in_img_path record ii.1 ii.2) st = (outcome_of r.2, st') /\
    cats st' = cats st /\ rng st' = rng st /\
    (forall k, group_of (imgToAnns st') k = groups k) /\
    stdout st' = stdout st ++ progress_from i (length r.1) /\
    disk st' = written d record (es ++ index_from i (length rs) (length r.1)) (rs ++ r.1).
Proof.
  intros Hne. induction images as [|img images IH]; intros i st d es rs Hg Hd Hlen; simpl.
  - exists st. unfold progress_from, index_from. simpl. by rewrite !app_nil_r.
  - destruct (loop_body_spec E groups in_img_path record i img st d es rs Hne Hg Hd)
      as (st1 & Hb & Hc1 & Hr1 & Hg1 & Hrest).
    destruct (build E (cats st) groups in_img_path i img) as [s|e] eqn:Hbuild.
    + destruct Hrest as [Ho1 Hd1].
      rewrite (bind_ok _ _ _ _ _ Hb).
      destruct (IH (S i) st1 d (es ++ [(i, length rs)]) (rs ++ [s]) Hg1 Hd1)
        as (st2 & Hl & Hc2 & Hr2 & Hg2 & Ho2 & Hd2).
      { rewrite !length_app. simpl. lia. }
      rewrite Hc1 in Hl, Ho2, Hd2. exists st2. split; [exact Hl|].
      split_and!; [congruence|congruence|done| |].
      * cbn [fst length]. rewrite progress_from_S, Ho2, Ho1. by rewrite app_assoc.
      * cbn [fst length]. rewrite index_from_S, Hd2. f_equal.
        -- rewrite <- app_assoc. simpl. do 3 f_equal. rewrite length_app. simpl. lia.
        -- by rewrite <- app_assoc.
    + destruct Hrest as [Ho1 Hd1].
      rewrite (bind_raise _ _ _ _ _ Hb). exists st1. split; [done|].
      split_and!; try done.
      * unfold progress_from. simpl. by rewrite app_nil_r.
      * unfold index_from. simpl. rewrite !app_nil_r. congruence.
Qed.

(** ** The records a loop writes *)

(** [build_all] reads the groups of the images it is given and no others. *)
Lemma build_all_ext E m groups1 groups2 in_img_path i images :
  (forall img, img ∈ images -> groups1 (img_id img) = groups2 (img_id img)) ->
  build_all E m groups1 in_img_path i images = build_all E m groups2 in_img_path i images.
Proof.
  revert i. induction images as [|img images IH]; intros i Hg; simpl; [done|].
  unfold build. rewrite (Hg img) by left.
  rewrite IH; [done|]. intros img' Hin. apply Hg. by right.
Qed.

(** [build_all] reads the environment through the image files only. *)
Lemma build_all_env E E' m groups in_img_path i images :
  image_files E' = image_files E ->
  build_all E' m groups in_img_path i images = build_all E m groups in_img_path i images.
Proof.
  intros Hf. revert i. induction images as [|img images IH]; intros i; simpl; [done|].
  unfold build. by rewrite Hf, IH.
Qed.

(** Every record written is the record of the image at its position. *)
Lemma build_all_lookup E m groups in_img_path i images j s :
  (build_all E m groups in_img_path i images).1 !! j = Some s ->
  exists img, images !! j = Some img /\ build E m groups in_img_path (i + j) img = Ok s.
Proof.
  revert i j. induction images as [|img images IH]; intros i j; simpl; [done|].
  destruct (build E m groups in_img_path i img) as [s0|e] eqn:Hb; simpl; [|done].
  destruct j as [|j]; simpl.
  - intros [= <-]. exists img. by rewrite Nat.add_0_r.
  - intros Hj. destruct (IH _ _ Hj) as (img' & Hi & Hb'). exists img'. split; [done|].
    by replace (i + S j) with (S i + j) by lia.
Qed.

Lemma build_all_hdr_id E m groups in_img_path i images j s :
  (build_all E m groups in_img_path i images).1 !! j = Some s ->
  hdr_id (packed_header s) = i + j.
Proof.
  intros (img & _ & Hb)%build_all_lookup. unfold build in Hb.
  destruct (image_files E _); [|done]. destruct (labels_of _ _); [|done].
  by injection Hb as <-.
Qed.

(** The loop stops at the first image that cannot be built. *)
Lemma build_all_app E m groups in_img_path i pre post :
  (build_all E m groups in_img_path i pre).2 = None ->
  build_all E m groups in_img_path i (pre ++ post) =
  ((build_all E m groups in_img_path i pre).1 ++
   (build_all E m groups in_img_path (i + length (build_all E m groups in_img_path i pre).1) post).1,
   (build_all E m groups in_img_path (i + length (build_all E m groups in_img_path i pre).1) post).2).
Proof.
  revert i. induction pre as [|img pre IH]; intros i; simpl.
  - intros _. rewrite Nat.add_0_r. by destruct (build_all E m groups in_img_path i post).
  - destruct (build E m groups in_img_path i img) as [s|e]; simpl; [|done].
    intros Hnone. rewrite (IH (S i) Hnone). simpl.
    by replace (i + S (length (build_all E m groups in_img_path (S i) pre).1))
      with (S i + length (build_all E m groups in_img_path (S i) pre).1) by lia.
Qed.

Lemma labels_of_Ok m group ls :
  labels_of m group = Ok ls ->
  Forall2 (fun a l => m !! ann_category_id a = Some l) group ls.
Proof.
  revert ls. induction group as [|a g IH]; intros ls; simpl.
  - intros [= <-]. constructor.
  - destruct (m !! ann_category_id a) as [l|] eqn:Hl; [|done].
    destruct (labels_of m g) as [ls'|]; [|done].
    intros [= <-]. constructor; auto.
Qed.

Lemma labels_of_labelled m group :
  labelled m group -> exists ls, labels_of m group = Ok ls.
Proof.
  induction 1 as [|a g [l Hl] _ [ls IH]]; simpl; [by eexists|].
  rewrite Hl, IH. by eexists.
Qed.

Lemma labels_of_Raise m group e :
  labels_of m group = Raise e ->
  exists a, a ∈ group /\ m !! ann_category_id a = None /\
    e = KeyError_int (ann_category_id a).
Proof.
  induction group as [|a g IH]; simpl; [done|].
  destruct (m !! ann_category_id a) as [l|] eqn:Hl.
  - destruct (labels_of m g) as [ls'|e']; [done|].
    intros [= <-]. destruct IH as (a' & Hin & Hn & He); [done|].
    exists a'. split; [by right|done].
  - intros [= <-]. exists a. split; [by left|done].
Qed.

Lemma labels_of_unlabelled m group :
  ~ labelled m group -> exists e, labels_of m group = Raise e.
Proof.
  intros Hn. destruct (labels_of m group) as [ls|e] eqn:Hl; [|by eexists].
  destruct Hn. apply labels_of_Ok in Hl. unfold labelled.
  induction Hl; constructor; eauto.
Qed.

Lemma labels_unique (m : gmap Z Z) group ls1 ls2 :
  Forall2 (fun a l => m !! ann_category_id a = Some l) group ls1 ->
  Forall2 (fun a l => m !! ann_category_id a = Some l) group ls2 ->
  ls1 = ls2.
Proof.
  intros H1. revert ls2. induction H1 as [|a l g ls Ha _ IH]; intros ls2 H2.
  - by inversion H2.
  - inversion H2 as [|a' l' g' ls' Ha' H2']; subst.
    assert (l = l') as -> by congruence. f_equal. by apply IH.
Qed.

Lemma Forall2_lookup_labels (m : gmap Z Z) group labels :
  Forall2 (fun a l => m !! ann_category_id a = Some l) group labels ->
  length labels = length group /\
  forall j a, group !! j = Some a -> labels !! j = m !! ann_category_id a.
Proof.
  intros HF. split; [symmetry; by eapply Forall2_length|].
  intros j a Hj. destruct (Forall2_lookup_l _ _ _ _ _ HF Hj) as (l & -> & Hl). done.
Qed.

Lemma concat_length_bboxes (group : list Annotation) :
  Forall (fun a => length (ann_bbox a) = 4) group ->
  length (concat (ann_bbox <$> group)) = 4 * length group.
Proof.
  induction group as [|a g IH]; intros Hall; [done|].
  apply Forall_cons in Hall as [Ha Hall]. rewrite fmap_cons. cbn [concat].
  rewrite length_app, Ha, IH by done. cbn [length]. lia.
Qed.

Lemma build_readable_labelled E m groups in_img_path i img :
  readable E in_img_path img -> labelled m (groups (img_id img)) ->
  exists s, build E m groups in_img_path i img = Ok s.
Proof.
  intros [imgData Hr] [ls Hl]%labels_of_labelled. unfold build. rewrite Hr, Hl. by eexists.
Qed.

(** A loop over images that can all be built writes a record for each. *)
Lemma build_all_ok E m groups in_img_path i images :
  Forall (fun img => readable E in_img_path img /\ labelled m (groups (img_id img)))
         images ->
  (build_all E m groups in_img_path i images).2 = None /\
  length (build_all E m groups in_img_path i images).1 = length images.
Proof.
  revert i. induction images as [|img images IH]; intros i Hall; simpl; [done|].
  apply Forall_cons in Hall as [[Hr Hl] Hall].
  destruct (build_readable_labelled E m groups in_img_path i img Hr Hl) as [s ->].
  simpl. destruct (IH (S i) Hall) as [-> ->]. done.
Qed.

Lemma build_record_of E dataset in_img_path i img s :
  build E (loaded_cats dataset) (image_annotations dataset) in_img_path i img = Ok s ->
  record_of E dataset in_img_path i img s.
Proof.
  unfold build, record_of.
  destruct (image_files E (path_join in_img_path (img_file_name img))) as [imgData|]; [|done].
  destruct (labels_of _ _) as [labels|] eqn:Hl; [|done].
  intros [= <-]. exists imgData, labels. split; [done|]. split; [|done].
  by apply labels_of_Ok.
Qed.

Lemma build_payload E m groups in_img_path i img :
  match build E m groups in_img_path i img with
  | Ok s => payload E m groups in_img_path img = Some (contents s)
  | Raise _ => payload E m groups in_img_path img = None
  end.
Proof.
  unfold payload, build.
  destruct (image_files E (path_join in_img_path (img_file_name img))); [|done].
  by destruct (labels_of m (groups (img_id img))).
Qed.

Lemma build_all_payloads E m groups in_img_path i images :
  (build_all E m groups in_img_path i images).2 = None ->
  contents <$> (build_all E m groups in_img_path i images).1 =
  omap (payload E m groups in_img_path) images.
Proof.
  revert i. induction images as [|img images IH]; intros i; simpl; [done|].
  pose proof (build_payload E m groups in_img_path i img) as Hp.
  destruct (build E m groups in_img_path i img) as [s|e]; simpl; [|done].
  intros Hnone. rewrite Hp. simpl. by rewrite IH.
Qed.

Lemma build_all_None E m groups in_img_path i images :
  (build_all E m groups in_img_path i images).2 = None <->
  Forall (fun img => is_Some (payload E m groups in_img_path img)) images.
Proof.
  revert i. induction images as [|img images IH]; intros i; simpl; [done|].
  pose proof (build_payload E m groups in_img_path i img) as Hp.
  destruct (build E m groups in_img_path i img) as [s|e]; simpl.
  - rewrite IH, Forall_cons, Hp. split; [|by intros [_ ?]]. intros ?. split; [by eexists|done].
  - rewrite Forall_cons, Hp. split; [done|]. by intros [[? [=]] _].
Qed.

Lemma outcome_of_Ok e : outcome_of e = Ok tt <-> e = None.
Proof. destruct e; simpl; split; congruence. Qed.

(** ** Shuffling *)

Lemma draw_lt g n : 0 < n -> (draw g n).1 < n.
Proof.
  intros Hn. destruct g as [|r g]; simpl; [done|]. apply Nat.mod_upper_bound. lia.
Qed.

Lemma randbelow_eq n st :
  exists st', randbelow n st = (Ok (draw (rng st) n).1, st') /\
    anns st' = anns st /\ imgs st' = imgs st /\ cats st' = cats st /\
    imgToAnns st' = imgToAnns st /\ rng st' = (draw (rng st) n).2 /\
    stdout st' = stdout st /\ disk st' = disk st.
Proof.
  unfold randbelow, draw. destruct (rng st) as [|r g] eqn:Hg;
    (eexists; split; [reflexivity|]); simpl; by rewrite ?Hg.
Qed.

Lemma swap_list_length {A} (x : list A) i j : length (swap_list x i j) = length x.
Proof.
  unfold swap_list. destruct (x !! j), (x !! i); try done. by rewrite !length_insert.
Qed.

Lemma swap_list_perm {A} (x : list A) i j : swap_list x i j ≡ₚ x.
Proof.
  unfold swap_list. destruct (x !! j) as [xj|] eqn:Hj, (x !! i) as [xi|] eqn:Hi; try done.
  by apply Permutation_insert_swap.
Qed.

Lemma swap_eq {A} (x : list A) i j st :
  i < length x -> j < length x -> swap x i j st = (Ok (swap_list x i j), st).
Proof.
  intros Hi Hj. unfold swap, swap_list.
  destruct (lookup_lt_is_Some_2 x i Hi) as [xi ->].
  destruct (lookup_lt_is_Some_2 x j Hj) as [xj ->]. done.
Qed.

Lemma shuffle_steps_perm {A} ixs (x : list A) g : (shuffle_steps ixs x g).1 ≡ₚ x.
Proof.
  revert x g. induction ixs as [|i ixs IH]; intros x g; simpl; [done|].
  rewrite IH. apply swap_list_perm.
Qed.

Lemma shuffled_perm {A} g (x : list A) : shuffled g x ≡ₚ x.
Proof. apply shuffle_steps_perm. Qed.

Lemma for_acc_shuffle {A} ixs (x : list A) st :
  Forall (fun i => i < length x) ixs ->
  exists st',
    for_acc ixs x (fun x i => j <- randbelow (i + 1) ;; swap x i j) st =
      (Ok (shuffle_steps ixs x (rng st)).1, st') /\
    anns st' = anns st /\ imgs st' = imgs st /\ cats st' = cats st /\
    imgToAnns st' = imgToAnns st /\ stdout st' = stdout st /\ disk st' = disk st.
Proof.
  revert x st. induction ixs as [|i ixs IH]; intros x st Hall; simpl.
  - exists st. done.
  - apply Forall_cons in Hall as [Hi Hall].
    destruct (randbelow_eq (i + 1) st) as (st1 & Hr & Ha1 & Hi1 & Hc1 & Hg1 & Hr1 & Ho1 & Hd1).
    assert (Hj : (draw (rng st) (i + 1)).1 < length x).
    { pose proof (draw_lt (rng st) (i + 1)). lia. }
    rewrite (bind_ok _ _ _ _ _ (bind_ok_eq _ _ _ _ _ _ Hr (swap_eq x i _ st1 Hi Hj))).
    destruct (IH (swap_list x i (draw (rng st) (i + 1)).1) st1)
      as (st2 & Hl & Ha2 & Hi2 & Hc2 & Hg2 & Ho2 & Hd2).
    { rewrite swap_list_length. done. }
    rewrite Hr1 in Hl. exists st2. split; [exact Hl|].
    split_and!; congruence.
Qed.

Lemma random_shuffle_spec {A} (x : list A) st :
  exists st',
    random_shuffle x st = (Ok (shuffled (rng st) x), st') /\
    anns st' = anns st /\ imgs st' = imgs st /\ cats st' = cats st /\
    imgToAnns st' = imgToAnns st /\ stdout st' = stdout st /\ disk st' = disk st.
Proof.
  apply for_acc_shuffle. apply Forall_forall. intros i Hi.
  apply elem_of_reverse, elem_of_seq in Hi. lia.
Qed.

Lemma processing_order_perm shuffle seed images :
  processing_order shuffle seed images ≡ₚ images.
Proof. destruct shuffle; simpl; [apply shuffled_perm|done]. Qed.

(** ** The run as a function of its inputs *)

Lemma create_recordio_spec E dataset in_img_path out_path shuffle groups st :
  (forall k, group_of (imgToAnns st) k = groups k) ->
  observe (create_recordio E dataset in_img_path out_path shuffle st) =
  recordio_obs E dataset in_img_path out_path shuffle
    (cats st) groups (rng st) (stdout st) (disk st).
Proof.
  intros Hg. unfold create_recordio, recordio_obs, MXIndexedRecordIO_open.
  fold (container out_path).
  set (st0 := set_disk (fun d =>
    <[path_join out_path "coco.idx" := IdxFile []]>
      (<[path_join out_path "coco.rec" := RecFile []]> d)) st).
  assert (Hopen : bind (modify (set_disk (fun d =>
      <[path_join out_path "coco.idx" := IdxFile []]>
        (<[path_join out_path "coco.rec" := RecFile []]> d))))
      (fun _ => ret (container out_path)) st = (Ok (container out_path), st0)) by done.
  rewrite (bind_ok _ _ _ _ _ Hopen). unfold dataset_getitem_images.
  destruct (ds_images dataset) as [images|]; [|done].
  run_rets.
  assert (Hsh : exists st1,
    (if shuffle then random_shuffle images else ret images) st0 =
      (Ok (processing_order shuffle (rng st) images), st1) /\
    cats st1 = cats st /\ imgToAnns st1 = imgToAnns st /\
    stdout st1 = stdout st /\ disk st1 = written (disk st) (container out_path) [] []).
  { destruct shuffle; simpl.
    - destruct (random_shuffle_spec images st0) as (st1 & -> & _ & _ & ? & ? & ? & ?).
      exists st1. done.
    - exists st0. done. }
  destruct Hsh as (st1 & Hsh & Hc1 & Hi1 & Ho1 & Hd1).
  rewrite (bind_ok _ _ _ _ _ Hsh).
  destruct (loop_spec E groups in_img_path (container out_path)
    (processing_order shuffle (rng st) images) (container_paths_ne out_path)
    0 st1 (disk st) [] []) as (st2 & Hl & Hc2 & Hr2 & Hg2 & Ho2 & Hd2); try done.
  { intros k. by rewrite Hi1. }
  unfold enumerate. rewrite Hl. unfold observe. cbn [fst snd].
  rewrite Ho2, Hd2, Hc1, Ho1. done.
Qed.

Lemma main_spec E seed d a0 in_path in_img_path out_path rest dataset :
  argv E = a0 :: in_path :: in_img_path :: out_path :: rest ->
  json_files E in_path = JsonParsed dataset ->
  observe (run E seed d) =
  recordio_obs E dataset in_img_path out_path (bool_decide (4 < length (argv E)))
    (loaded_cats dataset) (image_annotations dataset) seed
    (banner in_path in_img_path out_path (bool_decide (4 < length (argv E)))) d.
Proof.
  intros Hargv Hjson. unfold run, main, argv_getitem. rewrite Hargv.
  cbn [lookup list_lookup].
  run_rets.
  set (sh := bool_decide (4 < length (a0 :: in_path :: in_img_path :: out_path :: rest))).
  set (st0 := set_stdout (fun _ => banner in_path in_img_path out_path sh) (initial seed d)).
  assert (Hprint : forall k : M unit,
    bind (print ("Annotations file (with path): " +:+ in_path)) (fun _ =>
    bind (print ("Images path (directory): " +:+ in_img_path)) (fun _ =>
    bind (print ("Output path path (directory): " +:+ out_path)) (fun _ =>
    bind (print ("Shuffling [True/False]: " +:+ str_bool sh)) (fun _ => k))))
      (initial seed d) = k st0) by done.
  rewrite Hprint. unfold json_load. rewrite Hjson.
  run_rets.
  destruct (loader_spec dataset st0) as (st1 & Hload & Hc1 & Hi1 & Hr1 & Ho1 & Hd1).
  rewrite (bind_ok _ _ _ _ _ Hload).
  rewrite (create_recordio_spec _ _ _ _ _ (image_annotations dataset)).
  - rewrite Hc1, Hr1, Ho1, Hd1, loaded_cats_eq. done.
  - intros k. rewrite Hi1, group_of_foldl. done.
Qed.

(** Line 43 has no guard: without the key "images" the run opens the
    container and then raises. *)
Lemma run_images_absent E seed d a0 in_path in_img_path out_path rest dataset :
  argv E = a0 :: in_path :: in_img_path :: out_path :: rest ->
  json_files E in_path = JsonParsed dataset ->
  ds_images dataset = None ->
  (run E seed d).1 = Raise (KeyError_str "images") /\
  disk (run E seed d).2 = written d (container out_path) [] [].
Proof.
  intros Hargv Hjson Himages.
  pose proof (main_spec E seed d _ _ _ _ _ _ Hargv Hjson) as Hm.
  unfold recordio_obs in Hm. rewrite Himages in Hm.
  unfold observe in Hm. by injection Hm as H1 H2 H3.
Qed.

(** ** Runs on a parsed document with an images list *)

Section ParsedRun.
Variables (E : Env) (seed : list nat) (d : gmap string File).
Variables (a0 in_path in_img_path out_path : string) (rest : list string).
Variables (dataset : Dataset) (images : list Image).
Hypothesis Hargv : argv E = a0 :: in_path :: in_img_path :: out_path :: rest.
Hypothesis Hjson : json_files E in_path = JsonParsed dataset.
Hypothesis Himages : ds_images dataset = Some images.

(** The three components of [main_spec] when the images key is present. *)
Lemma run_output :
  let r := build_all E (loaded_cats dataset) (image_annotations dataset) in_img_path 0
             (processing_order (shuffle_flag E) seed images) in
  (run E seed d).1 = outcome_of r.2 /\
  output_records E seed d out_path = r.1 /\
  output_index E seed d out_path = index_from 0 0 (length r.1) /\
  stdout (run E seed d).2 =
    banner in_path in_img_path out_path (shuffle_flag E) ++ progress_from 0 (length r.1) /\
  disk (run E seed d).2 = written d (container out_path) (index_from 0 0 (length r.1)) r.1.
Proof.
  intros r.
  pose proof (main_spec E seed d _ _ _ _ _ _ Hargv Hjson) as Hm.
  unfold recordio_obs in Hm. rewrite Himages in Hm. fold (shuffle_flag E) in Hm.
  fold r in Hm. unfold observe in Hm. injection Hm as H1 H2 H3.
  unfold output_records, output_index. rewrite H3. split_and!; try done.
  - apply (written_records d (container out_path)), container_paths_ne.
  - apply (written_entries d (container out_path)).
Qed.

(** A run on images that can all be built completes and writes a record
    and an index entry for each. *)
Lemma one_entry_per_image_length :
  Forall (buildable E dataset in_img_path) images ->
  (run E seed d).1 = Ok tt /\
  length (output_records E seed d out_path) = length images.
Proof.
  intros Hall.
  destruct run_output
    as (Hout & Hrec & _).
  assert (Hall' : Forall (buildable E dataset in_img_path)
                    (processing_order (shuffle_flag E) seed images)).
  { apply Forall_forall. intros img Hin. rewrite Forall_forall in Hall. apply Hall.
    by rewrite processing_order_perm in Hin. }
  destruct (build_all_ok E (loaded_cats dataset) (image_annotations dataset)
              in_img_path 0 _ Hall') as [Hnone Hlen].
  rewrite Hout, Hrec, Hnone, Hlen. split; [done|]. by rewrite processing_order_perm.
Qed.

(** C4: when every image file can be read (and every category of an
    attached annotation is known), the run completes, the index has as many
    entries as the images list, and the record at position [i] is written
    under key [i] with header [(0, finalData, i, 0)] followed by the bytes
    of the image file. *)
Theorem one_entry_per_image :
  Forall (buildable E dataset in_img_path) images ->
  (run E seed d).1 = Ok tt /\
  length (output_index E seed d out_path) = length images /\
  length (output_records E seed d out_path) = length images /\
  forall i img,
    processing_order (shuffle_flag E) seed images !! i = Some img ->
    output_index E seed d out_path !! i = Some (i, i) /\
    exists s,
      output_records E seed d out_path !! i = Some s /\
      record_of E dataset in_img_path i img s /\
      hdr_flag (packed_header s) = 0%Z /\
      hdr_id (packed_header s) = i /\
      hdr_id2 (packed_header s) = 0%Z /\
      image_files E (path_join in_img_path (img_file_name img)) = Some (packed_data s).
Proof.
  intros Hall.
  destruct run_output
    as (Hout & Hrec & Hidx & _).
  set (order := processing_order (shuffle_flag E) seed images) in *.
  assert (Hall' : Forall (fun img => readable E in_img_path img /\
            labelled (loaded_cats dataset) (image_annotations dataset (img_id img))) order).
  { apply Forall_forall. intros img Hin. rewrite Forall_forall in Hall. apply Hall.
    subst order. by rewrite processing_order_perm in Hin. }
  destruct (build_all_ok E (loaded_cats dataset) (image_annotations dataset)
              in_img_path 0 order Hall') as [Hnone Hlen].
  assert (Hperm : length order = length images).
  { subst order. by rewrite processing_order_perm. }
  rewrite Hout, Hidx, Hrec, Hnone, index_from_length, Hlen.
  split_and!; try done.
  intros i img Hi. pose proof (lookup_lt_Some _ _ _ Hi) as Hlt.
  split; [by rewrite index_from_lookup by done|].
  destruct (lookup_lt_is_Some_2
    (build_all E (loaded_cats dataset) (image_annotations dataset) in_img_path 0 order).1 i)
    as [s Hs]; [lia|].
  exists s. split; [done|].
  apply build_all_lookup in Hs as (img' & Hi' & Hb). simpl in Hb.
  assert (img' = img) as -> by congruence.
  apply build_record_of in Hb as Hr. split; [done|].
  destruct Hr as (imgData & labels & Hfile & _ & ->). done.
Qed.

(** A run stops at the first image that cannot be built; what it wrote for
    the images before is there. *)
Lemma run_stops_at pre img post e :
  processing_order (shuffle_flag E) seed images = pre ++ img :: post ->
  Forall (buildable E dataset in_img_path) pre ->
  build E (loaded_cats dataset) (image_annotations dataset) in_img_path (length pre) img =
    Raise e ->
  (run E seed d).1 = Raise e /\
  length (output_index E seed d out_path) = length pre /\
  length (output_records E seed d out_path) = length pre /\
  (forall k, k ∈ (output_index E seed d out_path).*1 -> k < length pre) /\
  forall i img',
    pre !! i = Some img' ->
    output_index E seed d out_path !! i = Some (i, i) /\
    exists s, output_records E seed d out_path !! i = Some s /\
      record_of E dataset in_img_path i img' s.
Proof.
  intros Horder Hpre Hfail.
  destruct run_output
    as (Hout & Hrec & Hidx & _).
  rewrite Horder in Hout, Hrec, Hidx.
  destruct (build_all_ok E (loaded_cats dataset) (image_annotations dataset)
              in_img_path 0 pre Hpre) as [Hnone Hlen].
  rewrite build_all_app in Hout, Hrec, Hidx by done.
  rewrite Hlen in Hout, Hrec, Hidx. simpl in Hout, Hrec, Hidx.
  rewrite Hfail in Hout, Hrec, Hidx. simpl in Hout, Hrec, Hidx.
  rewrite app_nil_r in Hrec, Hidx. rewrite Hlen in Hidx.
  rewrite Hout, Hrec, Hidx, index_from_length, Hlen. split_and!; try done.
  - intros k (e' & -> & Hin%index_from_keys)%list_elem_of_fmap. lia.
  - intros i img' Hi. pose proof (lookup_lt_Some _ _ _ Hi) as Hlt.
    split; [by rewrite index_from_lookup by done|].
    destruct (lookup_lt_is_Some_2
      (build_all E (loaded_cats dataset) (image_annotations dataset) in_img_path 0 pre).1 i)
      as [s Hs]; [lia|].
    exists s. split; [done|].
    apply build_all_lookup in Hs as (img'' & Hi' & Hb). simpl in Hb.
    assert (img'' = img') as -> by congruence. by apply build_record_of.
Qed.

(** C7: when the file of an image cannot be read, the run stops there with
    the error of [open]; the index holds exactly the entries of the images
    before it, none for the failing image, and each of them is the complete
    record of its image under its key. *)
Theorem missing_image_keeps_prefix pre img post :
  processing_order (shuffle_flag E) seed images = pre ++ img :: post ->
  Forall (buildable E dataset in_img_path) pre ->
  image_files E (path_join in_img_path (img_file_name img)) = None ->
  (run E seed d).1 = Raise (FileNotFoundError (path_join in_img_path (img_file_name img))) /\
  length (output_index E seed d out_path) = length pre /\
  length (output_records E seed d out_path) = length pre /\
  (length pre ∉ (output_index E seed d out_path).*1) /\
  forall i img',
    pre !! i = Some img' ->
    output_index E seed d out_path !! i = Some (i, i) /\
    exists s, output_records E seed d out_path !! i = Some s /\
      record_of E dataset in_img_path i img' s.
Proof.
  intros Horder Hpre Hfile.
  destruct (run_stops_at pre img post
    (FileNotFoundError (path_join in_img_path (img_file_name img)))
    Horder Hpre) as (H1 & H2 & H3 & H4 & H5).
  { unfold build. by rewrite Hfile. }
  split_and!; try done. intros Hin%H4. lia.
Qed.

(** C8: when an annotation of an image has a category id that is not in the
    category list, the loader still completes; the run stops in the
    iteration of that image, after its file was read, with the [KeyError]
    of such a category id of that image, and the container holds the records
    of the images before it. *)
Theorem unknown_category_raises_KeyError pre img post ann :
  processing_order (shuffle_flag E) seed images = pre ++ img :: post ->
  Forall (buildable E dataset in_img_path) pre ->
  readable E in_img_path img ->
  ann ∈ default [] (ds_annotations dataset) ->
  ann_image_id ann = img_id img ->
  ann_category_id ann ∉ (cat_id <$> default [] (ds_categories dataset)) ->
  (forall st, (loader dataset st).1 = Ok tt) /\
  (exists ann',
     ann' ∈ default [] (ds_annotations dataset) /\
     ann_image_id ann' = img_id img /\
     (ann_category_id ann' ∉ (cat_id <$> default [] (ds_categories dataset))) /\
     (run E seed d).1 = Raise (KeyError_int (ann_category_id ann'))) /\
  length (output_index E seed d out_path) = length pre /\
  length (output_records E seed d out_path) = length pre /\
  forall i img',
    pre !! i = Some img' ->
    output_index E seed d out_path !! i = Some (i, i) /\
    exists s, output_records E seed d out_path !! i = Some s /\
      record_of E dataset in_img_path i img' s.
Proof.
  intros Horder Hpre [imgData Hfile] Hann Himg Hcat.
  assert (Hun : ~ labelled (loaded_cats dataset) (image_annotations dataset (img_id img))).
  { intros Hl. unfold labelled in Hl. rewrite Forall_forall in Hl.
    destruct (Hl ann) as [l Hl'].
    - unfold image_annotations. by apply list_elem_of_filter.
    - apply loaded_cats_None in Hcat. congruence. }
  destruct (labels_of_unlabelled _ _ Hun) as [e He].
  destruct (labels_of_Raise _ _ _ He) as (ann' & Hin' & Hnone & ->).
  destruct (run_stops_at pre img post
    (KeyError_int (ann_category_id ann'))
    Horder Hpre) as (H1 & H2 & H3 & H4 & H5).
  { unfold build. by rewrite Hfile, He. }
  split_and!; try done.
  - intros st. by destruct (loader_spec dataset st) as (st' & -> & _).
  - unfold image_annotations in Hin'. apply list_elem_of_filter in Hin' as [Hid Hin'].
    exists ann'. split_and!; try done. by apply loaded_cats_None.
Qed.

End ParsedRun.

Lemma one_entry_per_image_example :
  Forall (buildable Example.env Example.dataset "img") [mkImage 1 "a.jpg" 10 20] /\
  (run Example.env [] ∅).1 = Ok tt /\
  length (output_index Example.env [] ∅ "out") = 1.
Proof.
  assert (Hall : Forall (buildable Example.env Example.dataset "img") [mkImage 1 "a.jpg" 10 20]).
  { apply Forall_singleton. split.
    - by eexists.
    - unfold labelled. vm_compute. apply Forall_singleton. by eexists. }
  split; [exact Hall|].
  destruct (one_entry_per_image Example.env [] ∅ "create_recordio_coco.py" "ann.json"
              "img" "out" [] Example.dataset [mkImage 1 "a.jpg" 10 20]
              eq_refl eq_refl eq_refl Hall) as (Hok & Hlen & _).
  split; [exact Hok|exact Hlen].
Defined.

Lemma missing_image_keeps_prefix_example :
  Forall (buildable MissingImage.env MissingImage.dataset "img") [mkImage 1 "a.jpg" 10 20] /\
  image_files MissingImage.env (path_join "img" "b.jpg") = None /\
  (run MissingImage.env [] ∅).1 = Raise (FileNotFoundError "img/b.jpg") /\
  length (output_index MissingImage.env [] ∅ "out") = 1.
Proof.
  assert (Hpre : Forall (buildable MissingImage.env MissingImage.dataset "img")
                   [mkImage 1 "a.jpg" 10 20]).
  { apply Forall_singleton. split.
    - by eexists.
    - unfold labelled. vm_compute. apply Forall_singleton. by eexists. }
  split; [exact Hpre|]. split; [reflexivity|].
  destruct (missing_image_keeps_prefix MissingImage.env [] ∅ "create_recordio_coco.py"
    "ann.json" "img" "out" [] MissingImage.dataset
    [mkImage 1 "a.jpg" 10 20; mkImage 2 "b.jpg" 30 40] eq_refl eq_refl eq_refl
    [mkImage 1 "a.jpg" 10 20] (mkImage 2 "b.jpg" 30 40) []
    eq_refl Hpre eq_refl) as (Hout & Hlen & _).
  split; [exact Hout|exact Hlen].
Defined.

Lemma unknown_category_raises_KeyError_example :
  Forall (buildable UnknownCategory.env UnknownCategory.dataset "img")
         [mkImage 1 "a.jpg" 10 20] /\
  readable UnknownCategory.env "img" (mkImage 2 "a.jpg" 10 20) /\
  (7%Z ∉ (cat_id <$> default [] (ds_categories UnknownCategory.dataset))) /\
  (exists ann',
     ann' ∈ default [] (ds_annotations UnknownCategory.dataset) /\
     ann_image_id ann' = 2%Z /\
     (ann_category_id ann' ∉ (cat_id <$> default [] (ds_categories UnknownCategory.dataset))) /\
     (run UnknownCategory.env [] ∅).1 = Raise (KeyError_int (ann_category_id ann'))) /\
  length (output_records UnknownCategory.env [] ∅ "out") = 1.
Proof.
  assert (Hpre : Forall (buildable UnknownCategory.env UnknownCategory.dataset "img")
                   [mkImage 1 "a.jpg" 10 20]).
  { apply Forall_singleton. split.
    - by eexists.
    - unfold labelled. vm_compute. apply Forall_singleton. by eexists. }
  assert (Hread : readable UnknownCategory.env "img" (mkImage 2 "a.jpg" 10 20))
    by (by eexists).
  assert (Hcat : 7%Z ∉ (cat_id <$> default [] (ds_categories UnknownCategory.dataset))).
  { simpl. intros Hin%list_elem_of_singleton. discriminate. }
  split; [exact Hpre|]. split; [exact Hread|]. split; [exact Hcat|].
  destruct (unknown_category_raises_KeyError UnknownCategory.env [] ∅
    "create_recordio_coco.py" "ann.json" "img" "out" [] UnknownCategory.dataset
    [mkImage 1 "a.jpg" 10 20; mkImage 2 "a.jpg" 10 20] eq_refl eq_refl eq_refl
    [mkImage 1 "a.jpg" 10 20] (mkImage 2 "a.jpg" 10 20) []
    (mkAnnotation 2 2 7 [5; 6; 7; 8]%Z)
    eq_refl Hpre Hread) as (_ & Hraise & _ & Hlen & _).
  - simpl. apply list_elem_of_further, list_elem_of_here.
  - reflexivity.
  - exact Hcat.
  - split; [exact Hraise|exact Hlen].
Defined.

(** ** Absent top-level keys and parse failures *)

(** C1: with the key "images" absent the run does not complete: after the
    banner it creates both container files empty and then stops with an
    unhandled [KeyError] for "images". *)
Theorem images_absent_raises_KeyError :
  observe (run NoImages.env [] ∅) =
  (Raise (KeyError_str "images"),
   banner "ann.json" "img" "out" false,
   <[ "out/coco.idx" := IdxFile [] ]> (<[ "out/coco.rec" := RecFile [] ]> ∅)).
Proof.
  rewrite (main_spec NoImages.env [] ∅ "create_recordio_coco.py" "ann.json" "img" "out" []
             NoImages.dataset eq_refl eq_refl).
  reflexivity.
Qed.

(** C6: when the annotation file is missing or malformed the run stops at
    [json.load], after the banner and before the container is opened: the
    files of the output directory, [coco.rec] and [coco.idx] among them, are
    exactly as they were found. *)
Theorem parse_failure_writes_nothing E seed d a0 in_path in_img_path out_path rest :
  argv E = a0 :: in_path :: in_img_path :: out_path :: rest ->
  (forall dataset, json_files E in_path ≠ JsonParsed dataset) ->
  (run E seed d).1 =
    Raise (match json_files E in_path with
           | JsonMalformed => JSONDecodeError in_path
           | _ => FileNotFoundError in_path
           end) /\
  stdout (run E seed d).2 = banner in_path in_img_path out_path (shuffle_flag E) /\
  disk (run E seed d).2 = d /\
  disk (run E seed d).2 !! path_join out_path "coco.rec" = d !! path_join out_path "coco.rec" /\
  disk (run E seed d).2 !! path_join out_path "coco.idx" = d !! path_join out_path "coco.idx".
Proof.
  intros Hargv Hjson. unfold run, main, argv_getitem. rewrite Hargv.
  cbn [lookup list_lookup].
  run_rets.
  unfold json_load.
  unfold shuffle_flag. rewrite Hargv.
  destruct (json_files E in_path) as [| |dataset] eqn:Hj; [done|done|].
  by destruct (Hjson dataset).
Qed.

Lemma parse_failure_writes_nothing_example :
  (forall dataset, json_files Example.env "nowhere.json" ≠ JsonParsed dataset) /\
  (run (mkEnv ["create_recordio_coco.py"; "nowhere.json"; "img"; "out"]
          (json_files Example.env) (image_files Example.env)) [] ∅).1 =
    Raise (FileNotFoundError "nowhere.json").
Proof.
  assert (Hj : forall dataset, json_files Example.env "nowhere.json" ≠ JsonParsed dataset)
    by (intros dataset; discriminate).
  split; [exact Hj|].
  exact (proj1 (parse_failure_writes_nothing
    (mkEnv ["create_recordio_coco.py"; "nowhere.json"; "img"; "out"]
       (json_files Example.env) (image_files Example.env)) [] ∅
    "create_recordio_coco.py" "nowhere.json" "img" "out" [] eq_refl Hj)).
Defined.

(** ** The numeric field of a record *)

(** C2: the numeric field of every record written is the image's id, width
    and height, then one label per annotation of the image, then the boxes
    of those annotations flattened, labels and boxes in annotation order;
    with no annotation it is just id, width and height; the one-image
    scenario gives [1,10,20,1,1,2,3,4]. *)
Theorem record_numeric_field :
  (forall E seed d a0 in_path in_img_path out_path rest dataset images i s,
    argv E = a0 :: in_path :: in_img_path :: out_path :: rest ->
    json_files E in_path = JsonParsed dataset ->
    ds_images dataset = Some images ->
    output_records E seed d out_path !! i = Some s ->
    exists img labels,
      processing_order (shuffle_flag E) seed images !! i = Some img /\
      let group := image_annotations dataset (img_id img) in
      let bboxes := ann_bbox <$> group in
      hdr_label (packed_header s) =
        [img_id img; img_width img; img_height img] ++ labels ++ concat bboxes /\
      length labels = length group /\
      length bboxes = length group /\
      (forall j a, group !! j = Some a ->
         labels !! j = loaded_cats dataset !! ann_category_id a /\
         is_Some (labels !! j) /\
         bboxes !! j = Some (ann_bbox a)) /\
      (Forall (fun a => length (ann_bbox a) = 4) group ->
         length (concat bboxes) = 4 * length group) /\
      (group = [] ->
         hdr_label (packed_header s) = [img_id img; img_width img; img_height img]))
  /\ (fun s => hdr_label (packed_header s)) <$> output_records Example.env [] ∅ "out" =
     [[1; 10; 20; 1; 1; 2; 3; 4]%Z].
Proof.
  split; [|by vm_compute].
  intros E seed d a0 in_path in_img_path out_path rest dataset images i s
    Hargv Hjson Himages Hs.
  destruct (run_output E seed d _ _ _ _ _ _ _ Hargv Hjson Himages) as (_ & Hrec & _).
  rewrite Hrec in Hs. apply build_all_lookup in Hs as (img & Himg & Hb).
  apply build_record_of in Hb as (imgData & labels & _ & HF & ->).
  exists img, labels. split; [done|]. cbn zeta.
  destruct (Forall2_lookup_labels _ _ _ HF) as [Hlen Hlab].
  split_and!; try done.
  - by rewrite length_fmap.
  - intros j a Hj. split_and!.
    + by apply Hlab.
    + apply lookup_lt_is_Some. rewrite Hlen. by eapply lookup_lt_Some.
    + by rewrite list_lookup_fmap, Hj.
  - apply concat_length_bboxes.
  - intros Hnil. rewrite Hnil in HF, Hlen |- *. by destruct labels.
Qed.

Lemma record_numeric_field_example :
  output_records Example.env [] ∅ "out" !! 0 =
    Some (pack (mkIRHeader 0 [1; 10; 20; 1; 1; 2; 3; 4]%Z 0 0) Example.a_jpg) /\
  exists img labels,
    [mkImage 1 "a.jpg" 10 20] !! 0 = Some img /\
    [1; 10; 20; 1; 1; 2; 3; 4]%Z =
      [img_id img; img_width img; img_height img] ++ labels ++
      concat (ann_bbox <$> image_annotations Example.dataset (img_id img)) /\
    length labels = length (image_annotations Example.dataset (img_id img)).
Proof.
  assert (Hs : output_records Example.env [] ∅ "out" !! 0 =
    Some (pack (mkIRHeader 0 [1; 10; 20; 1; 1; 2; 3; 4]%Z 0 0) Example.a_jpg))
    by (vm_compute; reflexivity).
  split; [exact Hs|].
  destruct (proj1 record_numeric_field Example.env [] ∅
    "create_recordio_coco.py" "ann.json" "img" "out" [] Example.dataset
    [mkImage 1 "a.jpg" 10 20] 0 _ eq_refl eq_refl eq_refl Hs)
    as (img & labels & Himg & Hlabel & Hlen & _).
  exists img, labels. auto.
Defined.

(** ** The category remapping *)

(** C3, as stated, fails when an id is repeated: for the category list
    with ids [5, 5] the dictionary is {5: 2}, which is a bijection onto
    [1..K] for no [K] and does not give the first-seen id 5 the label 1. *)
Lemma repeated_category_not_bijection :
  loaded_cats RepeatedCategory.dataset !! 5%Z = Some 2%Z /\
  ~ (exists K, bijection_onto (loaded_cats RepeatedCategory.dataset)
                 (cat_id <$> default [] (ds_categories RepeatedCategory.dataset)) K) /\
  ~ dense_first_seen (loaded_cats RepeatedCategory.dataset)
      (cat_id <$> default [] (ds_categories RepeatedCategory.dataset)).
Proof.
  assert (H5 : loaded_cats RepeatedCategory.dataset !! 5%Z = Some 2%Z) by (by vm_compute).
  split; [exact H5|]. split.
  - intros (K & _ & Hrange & Honto & Hinj).
    pose proof (Hrange _ _ H5) as HK.
    destruct (Honto 1%Z ltac:(lia)) as [c Hc].
    assert (c ≠ 5%Z) by (intros ->; rewrite H5 in Hc; done).
    rewrite loaded_cats_eq in Hc.
    apply remap_from_lookup_Some in Hc as [(i & cat & Hi & <- & _)|[_ Hc]]; [|done].
    destruct i as [|[|i]]; simpl in Hi; by simplify_eq.
  - intros Hd. specialize (Hd 0 5%Z eq_refl). rewrite H5 in Hd. done.
Qed.

(** C3, amended: when the category ids are pairwise distinct, the
    remapping sends the category at position [i] (0-based) to the label
    [i+1] and is a bijection from the ids onto [1..K], [K] the length of
    the category list. *)
Theorem category_remap_bijection dataset :
  NoDup (cat_id <$> default [] (ds_categories dataset)) ->
  (forall i cat, default [] (ds_categories dataset) !! i = Some cat ->
     loaded_cats dataset !! cat_id cat = Some (Z.of_nat i + 1)%Z) /\
  dense_first_seen (loaded_cats dataset) (cat_id <$> default [] (ds_categories dataset)) /\
  bijection_onto (loaded_cats dataset) (cat_id <$> default [] (ds_categories dataset))
    (length (default [] (ds_categories dataset))).
Proof.
  intros Hnd. rewrite loaded_cats_eq. set (cs := default [] (ds_categories dataset)) in *.
  assert (Hpos : forall i cat, cs !! i = Some cat ->
            remap_from 0 cs ∅ !! cat_id cat = Some (Z.of_nat i + 1)%Z).
  { intros i cat Hi. by rewrite (remap_from_lookup_NoDup 0 cs ∅ i cat Hnd Hi). }
  assert (Hinv : forall c l, remap_from 0 cs ∅ !! c = Some l ->
            exists i cat, cs !! i = Some cat /\ cat_id cat = c /\ l = (Z.of_nat i + 1)%Z).
  { intros c l [(i & cat & ? & ? & ?)|[_ ?]]%remap_from_lookup_Some; [|done].
    exists i, cat. done. }
  split; [exact Hpos|]. split.
  - intros j c Hj. rewrite first_seen_NoDup in Hj by (done || intros ? _; apply not_elem_of_nil).
    apply list_lookup_fmap_Some in Hj as (cat & -> & Hj). by apply Hpos.
  - split_and!.
    + intros c. split.
      * intros (cat & -> & (i & Hi)%list_elem_of_lookup_1)%list_elem_of_fmap.
        rewrite (Hpos i cat Hi). by eexists.
      * intros [l (i & cat & Hi & <- & _)%Hinv].
        apply list_elem_of_fmap. exists cat. split; [done|]. by eapply list_elem_of_lookup_2.
    + intros c l (i & cat & Hi & _ & ->)%Hinv. apply lookup_lt_Some in Hi. lia.
    + intros l Hl. destruct (lookup_lt_is_Some_2 cs (Z.to_nat (l - 1))) as [cat Hcat]; [lia|].
      exists (cat_id cat). rewrite (Hpos _ _ Hcat). f_equal. lia.
    + intros c1 c2 l (i1 & cat1 & Hi1 & <- & ->)%Hinv (i2 & cat2 & Hi2 & <- & Heq)%Hinv.
      assert (i1 = i2) as -> by lia. congruence.
Qed.

Lemma category_remap_bijection_example :
  NoDup (cat_id <$> default [] (ds_categories Example.dataset)) /\
  loaded_cats Example.dataset !! 5%Z = Some 1%Z.
Proof.
  assert (Hnd : NoDup (cat_id <$> default [] (ds_categories Example.dataset))).
  { simpl. apply NoDup_singleton. }
  split; [exact Hnd|].
  exact (proj1 (category_remap_bijection Example.dataset Hnd) 0 (mkCategory 5 "x") eq_refl).
Defined.

(** ** Annotations and dictionaries that are never consumed *)

(** C9: an annotation whose image id is the id of no entry of the images
    list is grouped and never read again: the run on the document without
    it ends the same way, prints the same and leaves the same files. *)
Theorem unreferenced_annotation_ignored E E' seed d a0 in_path in_img_path out_path rest
    dataset n ann :
  argv E = a0 :: in_path :: in_img_path :: out_path :: rest ->
  json_files E in_path = JsonParsed dataset ->
  default [] (ds_annotations dataset) !! n = Some ann ->
  (ann_image_id ann ∉ (img_id <$> default [] (ds_images dataset))) ->
  argv E' = argv E ->
  image_files E' = image_files E ->
  json_files E' in_path = JsonParsed (remove_annotation n dataset) ->
  ann ∈ group_of (imgToAnns (loader dataset (initial seed d)).2) (ann_image_id ann) /\
  observe (run E' seed d) = observe (run E seed d).
Proof.
  intros Hargv Hjson Hn Hnin Hargv' Hfiles' Hjson'. split.
  { destruct (loader_spec dataset (initial seed d)) as (st' & -> & _ & Hi & _).
    simpl in Hi |- *. rewrite Hi, group_of_foldl. apply elem_of_app. right.
    apply list_elem_of_filter. split; [done|]. by eapply list_elem_of_lookup_2. }
  rewrite Hargv in Hargv'.
  rewrite (main_spec E seed d _ _ _ _ _ _ Hargv Hjson).
  rewrite (main_spec E' seed d _ _ _ _ _ _ Hargv' Hjson').
  rewrite Hargv, Hargv', loaded_cats_remove_annotation.
  unfold recordio_obs. cbn [remove_annotation ds_images].
  destruct (ds_images dataset) as [images|] eqn:Himages; [|done].
  assert (Hb : forall sh,
    build_all E' (loaded_cats dataset) (image_annotations (remove_annotation n dataset))
      in_img_path 0 (processing_order sh seed images) =
    build_all E (loaded_cats dataset) (image_annotations dataset)
      in_img_path 0 (processing_order sh seed images)).
  { intros sh. transitivity (build_all E (loaded_cats dataset)
      (image_annotations (remove_annotation n dataset)) in_img_path 0
      (processing_order sh seed images)).
    - by apply build_all_env.
    - apply build_all_ext. intros img Hin.
      apply (image_annotations_remove_annotation n dataset ann); [done|].
      intros Heq. apply Hnin. simpl. rewrite Heq.
      apply list_elem_of_fmap. exists img. split; [done|].
      by rewrite processing_order_perm in Hin. }
  by rewrite Hb.
Qed.

Lemma unreferenced_annotation_ignored_example :
  (99%Z ∉ (img_id <$> default [] (ds_images DanglingAnnotation.dataset))) /\
  observe (run (DanglingAnnotation.env (remove_annotation 1 DanglingAnnotation.dataset)) [] ∅) =
  observe (run (DanglingAnnotation.env DanglingAnnotation.dataset) [] ∅).
Proof.
  assert (Hnin : 99%Z ∉ (img_id <$> default [] (ds_images DanglingAnnotation.dataset))).
  { simpl. intros Hin%list_elem_of_singleton. discriminate. }
  split; [exact Hnin|].
  exact (proj2 (unreferenced_annotation_ignored
    (DanglingAnnotation.env DanglingAnnotation.dataset)
    (DanglingAnnotation.env (remove_annotation 1 DanglingAnnotation.dataset)) [] ∅
    "create_recordio_coco.py" "ann.json" "img" "out" [] DanglingAnnotation.dataset
    1 (mkAnnotation 2 99 5 [5; 6; 7; 8]%Z)
    eq_refl eq_refl eq_refl Hnin eq_refl eq_refl eq_refl)).
Defined.

(** C10: what lines 38-72 leave behind does not depend on the dictionaries
    [anns] and [imgs]; every record written is built from the entry of the
    images list at its position (file, width and height of that entry) and
    the annotations grouped under the entry's id, so entries that share an
    id each get a record, with the same labels and boxes. *)
Theorem by_id_maps_unused :
  (forall E dataset in_img_path out_path shuffle st anns' imgs',
     observe (create_recordio E dataset in_img_path out_path shuffle
                (set_imgs (fun _ => imgs') (set_anns (fun _ => anns') st))) =
     observe (create_recordio E dataset in_img_path out_path shuffle st)) /\
  (forall E seed d a0 in_path in_img_path out_path rest dataset images,
     argv E = a0 :: in_path :: in_img_path :: out_path :: rest ->
     json_files E in_path = JsonParsed dataset ->
     ds_images dataset = Some images ->
     (forall i s,
        output_records E seed d out_path !! i = Some s ->
        exists img,
          processing_order (shuffle_flag E) seed images !! i = Some img /\
          record_of E dataset in_img_path i img s) /\
     (Forall (buildable E dataset in_img_path) images ->
        length (output_records E seed d out_path) = length images) /\
     (forall i j si sj imgi imgj,
        processing_order (shuffle_flag E) seed images !! i = Some imgi ->
        processing_order (shuffle_flag E) seed images !! j = Some imgj ->
        img_id imgi = img_id imgj ->
        output_records E seed d out_path !! i = Some si ->
        output_records E seed d out_path !! j = Some sj ->
        take 3 (hdr_label (packed_header si)) = [img_id imgi; img_width imgi; img_height imgi] /\
        take 3 (hdr_label (packed_header sj)) = [img_id imgj; img_width imgj; img_height imgj] /\
        image_files E (path_join in_img_path (img_file_name imgi)) = Some (packed_data si) /\
        image_files E (path_join in_img_path (img_file_name imgj)) = Some (packed_data sj) /\
        drop 3 (hdr_label (packed_header si)) = drop 3 (hdr_label (packed_header sj)))) /\
  (fun s => (hdr_label (packed_header s), packed_data s)) <$>
    output_records DuplicateId.env [] ∅ "out" =
  [([1; 10; 20; 1; 1; 2; 3; 4]%Z, Example.a_jpg);
   ([1; 30; 40; 1; 1; 2; 3; 4]%Z, DuplicateId.b_jpg)].
Proof.
  split_and!; [| |by vm_compute].
  - intros E dataset in_img_path out_path shuffle st anns' imgs'.
    by rewrite !(create_recordio_spec _ _ _ _ _ (group_of (imgToAnns st))).
  - intros E seed d a0 in_path in_img_path out_path rest dataset images Hargv Hjson Himages.
    destruct (run_output E seed d _ _ _ _ _ _ _ Hargv Hjson Himages) as (_ & Hrec & _).
    assert (Hrecs : forall i s, output_records E seed d out_path !! i = Some s ->
      exists img, processing_order (shuffle_flag E) seed images !! i = Some img /\
        record_of E dataset in_img_path i img s).
    { intros i s Hs. rewrite Hrec in Hs.
      apply build_all_lookup in Hs as (img & Himg & Hb). exists img. split; [done|].
      by apply build_record_of. }
    split_and!; [exact Hrecs| |].
    + intros Hall.
      by destruct (one_entry_per_image_length E seed d _ _ _ _ _ _ _ Hargv Hjson Himages Hall).
    + intros i j si sj imgi imgj Hi Hj Hid Hsi Hsj.
      destruct (Hrecs i si Hsi) as (imgi' & Hi' & (di & li & Hfi & HFi & ->)).
      destruct (Hrecs j sj Hsj) as (imgj' & Hj' & (dj & lj & Hfj & HFj & ->)).
      assert (imgi' = imgi) as -> by congruence.
      assert (imgj' = imgj) as -> by congruence.
      split_and!; try done. simpl. rewrite <- Hid in HFj |- *.
      by rewrite (labels_unique _ _ _ _ HFi HFj).
Qed.

Lemma by_id_maps_unused_example :
  Forall (buildable DuplicateId.env DuplicateId.dataset "img")
         [mkImage 1 "a.jpg" 10 20; mkImage 1 "b.jpg" 30 40] /\
  length (output_records DuplicateId.env [] ∅ "out") = 2.
Proof.
  assert (Hall : Forall (buildable DuplicateId.env DuplicateId.dataset "img")
                   [mkImage 1 "a.jpg" 10 20; mkImage 1 "b.jpg" 30 40]).
  { repeat apply Forall_cons_2; [| |apply Forall_nil_2]; (split; [by eexists|]);
      unfold labelled; vm_compute; apply Forall_singleton; by eexists. }
  split; [exact Hall|].
  exact (proj1 (proj2 (proj1 (proj2 by_id_maps_unused) DuplicateId.env [] ∅
    "create_recordio_coco.py" "ann.json" "img" "out" [] DuplicateId.dataset
    [mkImage 1 "a.jpg" 10 20; mkImage 1 "b.jpg" 30 40] eq_refl eq_refl eq_refl)) Hall).
Defined.

(** ** Shuffling the images *)

(** The header of a record holds its position in the output, so the packed
    records of a shuffled run are those of the plain run only up to that
    id: on two images and a generator whose first draw swaps them, the two
    record lists are not permutations of one another as they stand. *)
Lemma shuffled_records_differ :
  output_records (ShuffleTwo.env []) [0] ∅ "out" =
    [pack (mkIRHeader 0 [1; 10; 20]%Z 0 0) Example.a_jpg;
     pack (mkIRHeader 0 [2; 30; 40]%Z 1 0) DuplicateId.b_jpg] /\
  output_records (ShuffleTwo.env ["shuffle"]) [0] ∅ "out" =
    [pack (mkIRHeader 0 [2; 30; 40]%Z 0 0) DuplicateId.b_jpg;
     pack (mkIRHeader 0 [1; 10; 20]%Z 1 0) Example.a_jpg] /\
  ~ (output_records (ShuffleTwo.env ["shuffle"]) [0] ∅ "out" ≡ₚ
     output_records (ShuffleTwo.env []) [0] ∅ "out").
Proof.
  assert (H0 : output_records (ShuffleTwo.env []) [0] ∅ "out" =
    [pack (mkIRHeader 0 [1; 10; 20]%Z 0 0) Example.a_jpg;
     pack (mkIRHeader 0 [2; 30; 40]%Z 1 0) DuplicateId.b_jpg]) by (by vm_compute).
  assert (H1 : output_records (ShuffleTwo.env ["shuffle"]) [0] ∅ "out" =
    [pack (mkIRHeader 0 [2; 30; 40]%Z 0 0) DuplicateId.b_jpg;
     pack (mkIRHeader 0 [1; 10; 20]%Z 1 0) Example.a_jpg]) by (by vm_compute).
  split; [exact H0|]. split; [exact H1|].
  rewrite H0, H1. intros HP.
  assert (Hin : pack (mkIRHeader 0 [2; 30; 40]%Z 0 0) DuplicateId.b_jpg ∈
    [pack (mkIRHeader 0 [1; 10; 20]%Z 0 0) Example.a_jpg;
     pack (mkIRHeader 0 [2; 30; 40]%Z 1 0) DuplicateId.b_jpg]).
  { rewrite <- HP. left. }
  apply elem_of_cons in Hin as [Hin|Hin]; [discriminate|].
  apply elem_of_cons in Hin as [Hin|Hin]; [discriminate|].
  by apply elem_of_nil in Hin.
Qed.

(** C5, as stated, fails on a run that stops midway: with the file of the
    second of two images missing, the plain run writes the record of the
    first image and stops at the second, while the run with a 4th argument
    and a generator whose first draw swaps the two stops at once; the
    contents of its output (none) are not a permutation of the contents of
    the plain output (one record), and neither are the records. *)
Lemma shuffled_failing_run_differs :
  contents <$> output_records (ShuffleMissing.env []) [0] ∅ "out" =
    [([1; 10; 20; 1; 1; 2; 3; 4]%Z, Example.a_jpg)] /\
  contents <$> output_records (ShuffleMissing.env ["shuffle"]) [0] ∅ "out" = [] /\
  ~ (contents <$> output_records (ShuffleMissing.env ["shuffle"]) [0] ∅ "out" ≡ₚ
     contents <$> output_records (ShuffleMissing.env []) [0] ∅ "out") /\
  ~ (output_records (ShuffleMissing.env ["shuffle"]) [0] ∅ "out" ≡ₚ
     output_records (ShuffleMissing.env []) [0] ∅ "out").
Proof.
  assert (H0 : contents <$> output_records (ShuffleMissing.env []) [0] ∅ "out" =
    [([1; 10; 20; 1; 1; 2; 3; 4]%Z, Example.a_jpg)]) by (by vm_compute).
  assert (H1 : contents <$> output_records (ShuffleMissing.env ["shuffle"]) [0] ∅ "out" = [])
    by (by vm_compute).
  assert (Hc : ~ (contents <$> output_records (ShuffleMissing.env ["shuffle"]) [0] ∅ "out" ≡ₚ
                  contents <$> output_records (ShuffleMissing.env []) [0] ∅ "out")).
  { rewrite H0, H1. intros HP. by apply Permutation_nil_l in HP. }
  split; [exact H0|]. split; [exact H1|]. split; [exact Hc|].
  intros HP. apply Hc. by rewrite HP.
Qed.

(** C5, amended: shuffling is on exactly when there is a 4th argument;
    without it the records are those of the images in list order; with it,
    the run completes exactly when the plain run does, and then its output
    is a permutation of the records of the plain run, content-identical
    (the same numeric vectors and image bytes), each under the header id
    and index key of its position in the output; the files are those of a
    plain run on the images list reordered by [shuffled seed], a function
    of the generator state. *)
Theorem shuffle_permutes_contents E seed d a0 in_path in_img_path out_path rest
    dataset images :
  argv E = a0 :: in_path :: in_img_path :: out_path :: rest ->
  json_files E in_path = JsonParsed dataset ->
  ds_images dataset = Some images ->
  (shuffle_flag E = true <-> is_Some (argv E !! 4)) /\
  (argv E !! 4 = None ->
     forall i s, output_records E seed d out_path !! i = Some s ->
       exists img, images !! i = Some img /\ record_of E dataset in_img_path i img s) /\
  ((run E seed d).1 = Ok tt <-> (run (without_shuffle E) seed d).1 = Ok tt) /\
  ((run E seed d).1 = Ok tt ->
     contents <$> output_records E seed d out_path ≡ₚ
     contents <$> output_records (without_shuffle E) seed d out_path) /\
  (forall i s, output_records E seed d out_path !! i = Some s ->
     hdr_id (packed_header s) = i /\
     output_index E seed d out_path !! i = Some (i, i)) /\
  (is_Some (argv E !! 4) ->
     forall E' seed',
       argv E' = take 4 (argv E) ->
       image_files E' = image_files E ->
       json_files E' in_path = JsonParsed (with_images (shuffled seed images) dataset) ->
       disk (run E' seed' d).2 = disk (run E seed d).2).
Proof.
  intros Hargv Hjson Himages.
  destruct (run_output E seed d _ _ _ _ _ _ _ Hargv Hjson Himages)
    as (Hout & Hrec & Hidx & _ & Hdisk).
  assert (Hargv0 : argv (without_shuffle E) = [a0; in_path; in_img_path; out_path]).
  { unfold without_shuffle. simpl. by rewrite Hargv. }
  destruct (run_output (without_shuffle E) seed d _ _ _ _ _ _ _ Hargv0 Hjson Himages)
    as (Hout0 & Hrec0 & _).
  assert (Hflag0 : shuffle_flag (without_shuffle E) = false).
  { unfold shuffle_flag. by rewrite Hargv0. }
  rewrite Hflag0 in Hout0, Hrec0. simpl in Hout0, Hrec0.
  rewrite (build_all_env E (without_shuffle E)) in Hout0, Hrec0 by done.
  assert (Hflag : shuffle_flag E = true <-> is_Some (argv E !! 4)).
  { unfold shuffle_flag. rewrite bool_decide_eq_true. symmetry. apply lookup_lt_is_Some. }
  split_and!.
  - exact Hflag.
  - intros Hnone i s Hs. rewrite Hrec in Hs.
    assert (Hoff : shuffle_flag E = false).
    { destruct (shuffle_flag E); [|done]. destruct (proj1 Hflag eq_refl). congruence. }
    rewrite Hoff in Hs. simpl in Hs.
    apply build_all_lookup in Hs as (img & Himg & Hb). exists img. split; [done|].
    by apply build_record_of.
  - rewrite Hout, Hout0, !outcome_of_Ok, !build_all_None.
    rewrite !Forall_forall. by setoid_rewrite processing_order_perm.
  - rewrite Hout, Hrec, Hrec0, outcome_of_Ok. intros Hnone.
    assert (Hnone0 : (build_all E (loaded_cats dataset) (image_annotations dataset)
                        in_img_path 0 images).2 = None).
    { apply build_all_None. apply build_all_None in Hnone.
      rewrite Forall_forall in Hnone |- *. intros img Hin. apply Hnone.
      by rewrite processing_order_perm. }
    rewrite !build_all_payloads by done. by rewrite processing_order_perm.
  - intros i s Hs. rewrite Hrec in Hs. split.
    + by rewrite (build_all_hdr_id _ _ _ _ _ _ _ _ Hs).
    + rewrite Hidx. apply index_from_lookup. by eapply lookup_lt_Some.
  - intros Hfour E' seed' Hargv' Hfiles' Hjson'.
    assert (Hargv'' : argv E' = [a0; in_path; in_img_path; out_path]).
    { rewrite Hargv', Hargv. done. }
    destruct (run_output E' seed' d _ _ _ _ _ _ (shuffled seed images) Hargv'' Hjson' eq_refl)
      as (_ & _ & _ & _ & Hdisk').
    assert (Hflag' : shuffle_flag E' = false).
    { unfold shuffle_flag. by rewrite Hargv''. }
    rewrite Hflag' in Hdisk'. simpl in Hdisk'.
    rewrite Hdisk', Hdisk. apply Hflag in Hfour. rewrite Hfour. simpl.
    rewrite (build_all_env E E') by done.
    replace (loaded_cats (with_images (shuffled seed images) dataset))
      with (loaded_cats dataset) by (by rewrite !loaded_cats_eq).
    done.
Qed.

Lemma shuffle_permutes_contents_example :
  (run (ShuffleTwo.env ["shuffle"]) [0] ∅).1 = Ok tt /\
  contents <$> output_records (ShuffleTwo.env ["shuffle"]) [0] ∅ "out" ≡ₚ
  contents <$> output_records (without_shuffle (ShuffleTwo.env ["shuffle"])) [0] ∅ "out".
Proof.
  assert (Hok : (run (ShuffleTwo.env ["shuffle"]) [0] ∅).1 = Ok tt) by (by vm_compute).
  split; [exact Hok|].
  exact (proj1 (proj2 (proj2 (proj2 (shuffle_permutes_contents (ShuffleTwo.env ["shuffle"])
    [0] ∅ "create_recordio_coco.py" "ann.json" "img" "out" ["shuffle"] ShuffleTwo.dataset
    [mkImage 1 "a.jpg" 10 20; mkImage 2 "b.jpg" 30 40] eq_refl eq_refl eq_refl)))) Hok).
Defined.

(** * Further properties *)

(** ** The run, case by case *)

Lemma run_obs_spec E seed d : observe (run E seed d) = run_obs E seed d.
Proof.
  unfold run_obs. destruct (argv E) as [|a0 [|in_path [|in_img_path [|out_path rest]]]] eqn:Hargv.
  1-4: unfold run, main, argv_getitem; rewrite Hargv; reflexivity.
  destruct (json_files E in_path) as [| |dataset] eqn:Hjson.
  3: { rewrite (main_spec E seed d _ _ _ _ _ _ Hargv Hjson). unfold shuffle_flag. done. }
  all: unfold run, main, argv_getitem; rewrite Hargv; cbn [lookup list_lookup];
    run_rets; unfold json_load, shuffle_flag; rewrite Hjson, Hargv; reflexivity.
Qed.

(** X1: with fewer than three positional arguments the run stops with an
    [IndexError] at lines 8-10: nothing is printed and no file is touched. *)
Theorem too_few_arguments E seed d :
  length (argv E) < 4 ->
  observe (run E seed d) = (Raise IndexError, [], d).
Proof.
  intros Hlen. rewrite run_obs_spec. unfold run_obs.
  destruct (argv E) as [|a0 [|in_path [|in_img_path [|out_path rest]]]]; try done.
  simpl in Hlen. lia.
Qed.

Lemma too_few_arguments_example :
  length (argv (mkEnv ["create_recordio_coco.py"; "ann.json"; "img"]
                  (json_files Example.env) (image_files Example.env))) < 4 /\
  observe (run (mkEnv ["create_recordio_coco.py"; "ann.json"; "img"]
                  (json_files Example.env) (image_files Example.env)) [] ∅) =
    (Raise IndexError, [], ∅).
Proof.
  assert (Hlen : length (argv (mkEnv ["create_recordio_coco.py"; "ann.json"; "img"]
                  (json_files Example.env) (image_files Example.env))) < 4) by (simpl; lia).
  split; [exact Hlen|].
  exact (too_few_arguments _ [] ∅ Hlen).
Defined.

Lemma run_obs_parts E seed d :
  (run E seed d).1 = (run_obs E seed d).1.1 /\
  stdout (run E seed d).2 = (run_obs E seed d).1.2 /\
  disk (run E seed d).2 = (run_obs E seed d).2.
Proof. rewrite <- run_obs_spec. done. Qed.

Lemma written_lookup_other d record es rs p :
  p ≠ idx_path record -> p ≠ uri record ->
  written d record es rs !! p = d !! p.
Proof. intros H1 H2. unfold written. by rewrite !lookup_insert_ne. Qed.

Lemma build_all_le E m groups in_img_path i images :
  length (build_all E m groups in_img_path i images).1 <= length images.
Proof.
  revert i. induction images as [|img images IH]; intros i; simpl; [done|].
  destruct (build E m groups in_img_path i img); simpl; [|lia].
  specialize (IH (S i)). lia.
Qed.

(** ** Which files a run touches *)

(** X2: whatever the arguments and inputs, and however the run ends, a file
    of the output directory other than [coco.rec] and [coco.idx] under the
    output path is left as it was. *)
Theorem other_files_untouched E seed d p :
  (forall out_path, argv E !! 3 = Some out_path ->
     p ≠ path_join out_path "coco.rec" /\ p ≠ path_join out_path "coco.idx") ->
  disk (run E seed d).2 !! p = d !! p.
Proof.
  intros Hp. destruct (run_obs_parts E seed d) as (_ & _ & ->). unfold run_obs.
  destruct (argv E) as [|a0 [|in_path [|in_img_path [|out_path rest]]]]; try done.
  destruct (Hp out_path eq_refl) as [Hrec Hidx].
  destruct (json_files E in_path) as [| |dataset]; try done.
  unfold recordio_obs. destruct (ds_images dataset); simpl;
    by apply written_lookup_other.
Qed.

Lemma other_files_untouched_example :
  (forall out_path, argv Example.env !! 3 = Some out_path ->
     "out/notes.txt" ≠ path_join out_path "coco.rec" /\
     "out/notes.txt" ≠ path_join out_path "coco.idx") /\
  disk (run Example.env [] {[ "out/notes.txt" := RawFile [Byte.x42] ]}).2 !! "out/notes.txt" =
    Some (RawFile [Byte.x42]).
Proof.
  assert (Hp : forall out_path, argv Example.env !! 3 = Some out_path ->
     "out/notes.txt" ≠ path_join out_path "coco.rec" /\
     "out/notes.txt" ≠ path_join out_path "coco.idx").
  { intros out_path [= <-]. split; discriminate. }
  split; [exact Hp|].
  exact (other_files_untouched Example.env [] {[ "out/notes.txt" := RawFile [Byte.x42] ]}
           "out/notes.txt" Hp).
Defined.

(** X3: opening the container in mode ['w'] discards what the two files
    held: once the annotation file parses, how the run ends, what it prints
    and the records and index lines it leaves do not depend on the files
    found in the output directory. *)
Theorem previous_container_discarded E seed d d' a0 in_path in_img_path out_path rest dataset :
  argv E = a0 :: in_path :: in_img_path :: out_path :: rest ->
  json_files E in_path = JsonParsed dataset ->
  (run E seed d).1 = (run E seed d').1 /\
  stdout (run E seed d).2 = stdout (run E seed d').2 /\
  output_records E seed d out_path = output_records E seed d' out_path /\
  output_index E seed d out_path = output_index E seed d' out_path.
Proof.
  intros Hargv Hjson. unfold output_records, output_index.
  destruct (run_obs_parts E seed d) as (-> & -> & ->).
  destruct (run_obs_parts E seed d') as (-> & -> & ->).
  unfold run_obs. rewrite Hargv, Hjson. unfold recordio_obs.
  fold (uri (container out_path)). fold (idx_path (container out_path)).
  destruct (ds_images dataset); simpl;
    by rewrite !written_records, !written_entries by apply container_paths_ne.
Qed.

Lemma previous_container_discarded_example :
  output_records Example.env []
    {[ "out/coco.rec" := RecFile [pack (mkIRHeader 7 [] 7 7) []] ]} "out" =
  output_records Example.env [] ∅ "out".
Proof.
  exact (proj1 (proj2 (proj2 (previous_container_discarded Example.env []
    {[ "out/coco.rec" := RecFile [pack (mkIRHeader 7 [] 7 7) []] ]} ∅
    "create_recordio_coco.py" "ann.json" "img" "out" [] Example.dataset eq_refl eq_refl)))).
Defined.

(** X4: index and record file stay in step, also when the run fails: after
    any run on a parsed document the index has one line per record, the
    line at position [k] is key [k] at position [k], and there are at most
    as many records as entries in the images list. *)
Theorem index_in_step_with_records E seed d a0 in_path in_img_path out_path rest dataset :
  argv E = a0 :: in_path :: in_img_path :: out_path :: rest ->
  json_files E in_path = JsonParsed dataset ->
  output_index E seed d out_path =
    (fun k => (k, k)) <$> seq 0 (length (output_records E seed d out_path)) /\
  NoDup (output_index E seed d out_path).*1 /\
  length (output_records E seed d out_path) <= length (default [] (ds_images dataset)).
Proof.
  intros Hargv Hjson.
  assert (Hidx : output_index E seed d out_path =
    (fun k => (k, k)) <$> seq 0 (length (output_records E seed d out_path)) /\
    length (output_records E seed d out_path) <= length (default [] (ds_images dataset))).
  { unfold output_records, output_index.
    destruct (run_obs_parts E seed d) as (_ & _ & ->).
    unfold run_obs. rewrite Hargv, Hjson. unfold recordio_obs.
    fold (uri (container out_path)). fold (idx_path (container out_path)).
    destruct (ds_images dataset) as [images|]; simpl;
      rewrite !written_records, !written_entries by apply container_paths_ne; [|done].
    split; [done|]. rewrite build_all_le. by rewrite processing_order_perm. }
  destruct Hidx as [Hidx Hle]. split_and!; [done| |done].
  rewrite Hidx, <- list_fmap_compose. simpl. rewrite list_fmap_id. apply NoDup_seq.
Qed.

Lemma index_in_step_with_records_example :
  output_index MissingImage.env [] ∅ "out" =
    (fun k => (k, k)) <$> seq 0 (length (output_records MissingImage.env [] ∅ "out")).
Proof.
  exact (proj1 (index_in_step_with_records MissingImage.env [] ∅
    "create_recordio_coco.py" "ann.json" "img" "out" [] MissingImage.dataset
    eq_refl eq_refl)).
Defined.

(** ** When a run completes *)

Lemma payload_buildable E dataset in_img_path img :
  is_Some (payload E (loaded_cats dataset) (image_annotations dataset) in_img_path img) <->
  buildable E dataset in_img_path img.
Proof.
  unfold payload, build, buildable, readable.
  destruct (image_files E (path_join in_img_path (img_file_name img))) as [imgData|].
  2:{ split; [by intros [? [=]]|]. by intros [[? [=]] _]. }
  destruct (labels_of _ _) as [labels|e] eqn:Hl.
  - split; [|by eexists]. intros _. split; [by eexists|].
    apply labels_of_Ok in Hl. unfold labelled. induction Hl; constructor; eauto.
  - split; [by intros [? [=]]|]. intros [_ [ls Hls]%labels_of_labelled]. congruence.
Qed.

(** X5: a run on a parsed document with an images list completes normally
    only if the file of every image of the list can be read and every
    category id of an annotation attached to an image of the list is in the
    category list: no image is skipped. *)
Theorem completes_only_if_all_buildable E seed d a0 in_path in_img_path out_path rest
    dataset images :
  argv E = a0 :: in_path :: in_img_path :: out_path :: rest ->
  json_files E in_path = JsonParsed dataset ->
  ds_images dataset = Some images ->
  (run E seed d).1 = Ok tt ->
  Forall (fun img =>
            is_Some (image_files E (path_join in_img_path (img_file_name img))) /\
            forall a, a ∈ default [] (ds_annotations dataset) ->
              ann_image_id a = img_id img ->
              ann_category_id a ∈ (cat_id <$> default [] (ds_categories dataset)))
         images.
Proof.
  intros Hargv Hjson Himages.
  destruct (run_output E seed d _ _ _ _ _ _ _ Hargv Hjson Himages) as (-> & _).
  rewrite outcome_of_Ok, build_all_None, !Forall_forall.
  setoid_rewrite processing_order_perm. setoid_rewrite payload_buildable.
  intros Hall img Himg. destruct (Hall img Himg) as [Hread Hlab]. split; [exact Hread|].
  intros a Ha Hid. unfold labelled in Hlab. rewrite Forall_forall in Hlab.
  destruct (Hlab a) as [l Hl].
  - unfold image_annotations. by apply list_elem_of_filter.
  - destruct (decide (ann_category_id a ∈ (cat_id <$> default [] (ds_categories dataset))))
      as [Hin|Hnin]; [done|].
    apply loaded_cats_None in Hnin. congruence.
Qed.

Lemma completes_only_if_all_buildable_example :
  (run Example.env [] ∅).1 = Ok tt /\
  Forall (fun img =>
            is_Some (image_files Example.env (path_join "img" (img_file_name img))) /\
            forall a, a ∈ default [] (ds_annotations Example.dataset) ->
              ann_image_id a = img_id img ->
              ann_category_id a ∈ (cat_id <$> default [] (ds_categories Example.dataset)))
         [mkImage 1 "a.jpg" 10 20].
Proof.
  assert (Hrun : (run Example.env [] ∅).1 = Ok tt) by (by vm_compute).
  split; [exact Hrun|].
  exact (completes_only_if_all_buildable Example.env [] ∅
    "create_recordio_coco.py" "ann.json" "img" "out" [] Example.dataset
    [mkImage 1 "a.jpg" 10 20] eq_refl eq_refl eq_refl Hrun).
Defined.

(** ** What a run depends on *)

(** X6: without a 4th argument the generator is never consulted: the run
    ends the same way, prints the same and leaves the same files for every
    state of the generator. *)
Theorem no_shuffle_ignores_seed E seed seed' d :
  argv E !! 4 = None ->
  observe (run E seed d) = observe (run E seed' d).
Proof.
  intros Hfour. rewrite !run_obs_spec. unfold run_obs.
  assert (Hflag : shuffle_flag E = false).
  { unfold shuffle_flag. apply bool_decide_eq_false. intros Hlt.
    apply lookup_lt_is_Some in Hlt as [? ?]. congruence. }
  rewrite Hflag. done.
Qed.

Lemma no_shuffle_ignores_seed_example :
  argv Example.env !! 4 = None /\
  observe (run Example.env [3; 1; 4] ∅) = observe (run Example.env [] ∅).
Proof.
  split; [reflexivity|].
  exact (no_shuffle_ignores_seed Example.env [3; 1; 4] [] ∅ eq_refl).
Defined.

Lemma recordio_obs_env E E' dataset in_img_path out_path shuffle m groups g out d :
  image_files E' = image_files E ->
  recordio_obs E' dataset in_img_path out_path shuffle m groups g out d =
  recordio_obs E dataset in_img_path out_path shuffle m groups g out d.
Proof.
  intros Hf. unfold recordio_obs. destruct (ds_images dataset); [|done].
  by rewrite (build_all_env E E').
Qed.

(** X7: of the command line only the three positional arguments and the
    presence of a 4th one matter: two invocations that agree on
    [argv[1..3]] and on whether [argv[4]] exists, on the same files, give
    the same outcome, console output and files, whatever the program name,
    the value of the 4th argument and any arguments after it. *)
Theorem argv_dependence E E' seed d :
  (forall k, 1 <= k <= 3 -> argv E' !! k = argv E !! k) ->
  (is_Some (argv E' !! 4) <-> is_Some (argv E !! 4)) ->
  json_files E' = json_files E ->
  image_files E' = image_files E ->
  observe (run E' seed d) = observe (run E seed d).
Proof.
  intros Hk Hfour Hjson Himg. rewrite !run_obs_spec. unfold run_obs.
  assert (Hflag : shuffle_flag E' = shuffle_flag E).
  { unfold shuffle_flag. apply bool_decide_ext. by rewrite <- !lookup_lt_is_Some. }
  pose proof (Hk 1 ltac:(lia)) as H1. pose proof (Hk 2 ltac:(lia)) as H2.
  pose proof (Hk 3 ltac:(lia)) as H3.
  rewrite Hflag, Hjson.
  destruct (argv E) as [|a0 [|p1 [|p2 [|p3 rest]]]],
           (argv E') as [|a0' [|p1' [|p2' [|p3' rest']]]];
    simpl in H1, H2, H3; try done.
  simplify_eq. destruct (json_files E p1); try done.
  by apply recordio_obs_env.
Qed.

Lemma argv_dependence_example :
  observe (run (ShuffleTwo.env ["yes"; "and"; "more"]) [0] ∅) =
  observe (run (ShuffleTwo.env ["shuffle"]) [0] ∅).
Proof.
  apply (argv_dependence (ShuffleTwo.env ["shuffle"]) (ShuffleTwo.env ["yes"; "and"; "more"])).
  - intros [|[|[|[|k]]]] Hk; try reflexivity; lia.
  - split; intros _; by eexists.
  - reflexivity.
  - reflexivity.
Defined.

(** X8: the guards at lines 25 and 34: a document without the key
    "annotations" or without the key "categories" gives the same run as the
    document with that key holding the empty list. *)
Theorem absent_annotations_categories_as_empty E E' seed d a0 in_path in_img_path out_path
    rest dataset :
  argv E = a0 :: in_path :: in_img_path :: out_path :: rest ->
  json_files E in_path = JsonParsed dataset ->
  argv E' = argv E ->
  image_files E' = image_files E ->
  json_files E' in_path =
    JsonParsed (mkDataset (ds_images dataset)
                          (Some (default [] (ds_annotations dataset)))
                          (Some (default [] (ds_categories dataset)))) ->
  observe (run E' seed d) = observe (run E seed d).
Proof.
  intros Hargv Hjson Hargv' Himg Hjson'. rewrite Hargv in Hargv'.
  rewrite (main_spec E seed d _ _ _ _ _ _ Hargv Hjson).
  rewrite (main_spec E' seed d _ _ _ _ _ _ Hargv' Hjson').
  rewrite Hargv, Hargv', (recordio_obs_env E E') by done.
  rewrite !loaded_cats_eq. done.
Qed.

Lemma absent_annotations_categories_as_empty_example :
  observe (run (DanglingAnnotation.env
                  (mkDataset (Some [mkImage 1 "a.jpg" 10 20]) (Some []) (Some []))) [] ∅) =
  observe (run (DanglingAnnotation.env
                  (mkDataset (Some [mkImage 1 "a.jpg" 10 20]) None None)) [] ∅).
Proof.
  exact (absent_annotations_categories_as_empty
    (DanglingAnnotation.env (mkDataset (Some [mkImage 1 "a.jpg" 10 20]) None None))
    (DanglingAnnotation.env (mkDataset (Some [mkImage 1 "a.jpg" 10 20]) (Some []) (Some [])))
    [] ∅ "create_recordio_coco.py" "ann.json" "img" "out" []
    (mkDataset (Some [mkImage 1 "a.jpg" 10 20]) None None)
    eq_refl eq_refl eq_refl eq_refl eq_refl).
Defined.

(** ** Labels and the console *)

(** X9: every label written is between 1 and the number of entries of the
    category list, repeated ids or not: position [3 + j] of the numeric
    field of a record holds the label that the remapping gives to the
    category of the [j]-th annotation of its image, and that label is in
    [1..K]. *)
Theorem labels_in_range E seed d a0 in_path in_img_path out_path rest dataset images
    i s img j a :
  argv E = a0 :: in_path :: in_img_path :: out_path :: rest ->
  json_files E in_path = JsonParsed dataset ->
  ds_images dataset = Some images ->
  output_records E seed d out_path !! i = Some s ->
  processing_order (shuffle_flag E) seed images !! i = Some img ->
  image_annotations dataset (img_id img) !! j = Some a ->
  exists l,
    hdr_label (packed_header s) !! (3 + j) = Some l /\
    loaded_cats dataset !! ann_category_id a = Some l /\
    (1 <= l <= Z.of_nat (length (default [] (ds_categories dataset))))%Z.
Proof.
  intros Hargv Hjson Himages Hs Himg Ha.
  destruct (run_output E seed d _ _ _ _ _ _ _ Hargv Hjson Himages) as (_ & Hrec & _).
  rewrite Hrec in Hs. apply build_all_lookup in Hs as (img' & Himg' & Hb).
  assert (img' = img) as -> by congruence.
  apply build_record_of in Hb as (imgData & labels & _ & HF & ->).
  destruct (Forall2_lookup_labels _ _ _ HF) as [Hlen Hlab].
  pose proof (lookup_lt_Some _ _ _ Ha) as Hj.
  pose proof (Hlab j a Ha) as Hl.
  destruct (lookup_lt_is_Some_2 labels j) as [l Hlj]; [lia|].
  rewrite Hlj in Hl. symmetry in Hl.
  exists l. split; [|split].
  - cbn [packed_header hdr_label]. change (3 + j) with (S (S (S j))). cbn [app lookup list_lookup].
    by apply lookup_app_l_Some.
  - exact Hl.
  - rewrite loaded_cats_eq in Hl.
    apply remap_from_lookup_Some in Hl as [(k & cat & Hk & _ & ->)|[_ ?]]; [|done].
    apply lookup_lt_Some in Hk. lia.
Qed.

Lemma labels_in_range_example :
  exists l,
    [1; 10; 20; 1; 1; 2; 3; 4]%Z !! 3 = Some l /\
    loaded_cats Example.dataset !! 5%Z = Some l /\
    (1 <= l <= Z.of_nat (length (default [] (ds_categories Example.dataset))))%Z.
Proof.
  exact (labels_in_range Example.env [] ∅ "create_recordio_coco.py" "ann.json" "img" "out" []
    Example.dataset [mkImage 1 "a.jpg" 10 20] 0
    (pack (mkIRHeader 0 [1; 10; 20; 1; 1; 2; 3; 4]%Z 0 0) Example.a_jpg)
    (mkImage 1 "a.jpg" 10 20) 0 (mkAnnotation 1 1 5 [1; 2; 3; 4]%Z)
    eq_refl eq_refl eq_refl eq_refl eq_refl eq_refl).
Defined.

Lemma filter_mod_100_seq n :
  filter (fun k => k mod 100 = 0) (seq 0 n) =
  (fun q => 100 * q) <$> seq 0 ((n + 99) / 100).
Proof.
  induction n as [|n IH]; [done|].
  rewrite seq_S, filter_app, IH, filter_cons, filter_nil. change (0 + n) with n.
  pose proof (Nat.div_mod_eq n 100). pose proof (Nat.div_mod_eq (n + 99) 100).
  pose proof (Nat.div_mod_eq (S n + 99) 100). pose proof (Nat.mod_upper_bound n 100).
  pose proof (Nat.mod_upper_bound (n + 99) 100).
  pose proof (Nat.mod_upper_bound (S n + 99) 100).
  destruct (decide (n mod 100 = 0)) as [Hz|Hnz].
  - replace ((S n + 99) / 100) with (S ((n + 99) / 100)) by lia.
    rewrite seq_S, fmap_app. change (0 + (n + 99) / 100) with ((n + 99) / 100).
    cbn [fmap list_fmap]. do 2 f_equal. lia.
  - replace ((S n + 99) / 100) with ((n + 99) / 100) by lia. by rewrite app_nil_r.
Qed.

(** X10: the console of a run on a parsed document is the four banner
    lines followed by the numbers 0, 100, 200, ... below the number [m] of
    records written, one progress line per started hundred. *)
Theorem console_output E seed d a0 in_path in_img_path out_path rest dataset :
  argv E = a0 :: in_path :: in_img_path :: out_path :: rest ->
  json_files E in_path = JsonParsed dataset ->
  stdout (run E seed d).2 =
    ["Annotations file (with path): " +:+ in_path;
     "Images path (directory): " +:+ in_img_path;
     "Output path path (directory): " +:+ out_path;
     "Shuffling [True/False]: " +:+ (if bool_decide (4 < length (argv E)) then "True" else "False")]
    ++ ((fun q => pretty (100 * q)) <$>
          seq 0 ((length (output_records E seed d out_path) + 99) / 100)).
Proof.
  intros Hargv Hjson. unfold output_records.
  destruct (run_obs_parts E seed d) as (_ & -> & ->).
  unfold run_obs. rewrite Hargv, Hjson. unfold recordio_obs.
  fold (uri (container out_path)).
  destruct (ds_images dataset) as [images|]; cbn [fst snd];
    rewrite written_records by apply container_paths_ne.
  - unfold progress_from. rewrite filter_mod_100_seq, <- list_fmap_compose.
    unfold shuffle_flag. by rewrite Hargv.
  - unfold shuffle_flag. rewrite Hargv. by rewrite app_nil_r.
Qed.

Lemma console_output_example :
  stdout (run Example.env [] ∅).2 =
    ["Annotations file (with path): ann.json"; "Images path (directory): img";
     "Output path path (directory): out"; "Shuffling [True/False]: False"]
    ++ ((fun q => pretty (100 * q)) <$>
          seq 0 ((length (output_records Example.env [] ∅ "out") + 99) / 100)).
Proof.
  exact (console_output Example.env [] ∅ "create_recordio_coco.py" "ann.json" "img" "out" []
           Example.dataset eq_refl eq_refl).
Defined.

(** ** The dictionaries of the loader *)

Lemma group_step_lookup_None ita ann k :
  group_step ita ann !! k = None <-> ita !! k = None /\ ann_image_id ann ≠ k.
Proof.
  unfold group_step. destruct (decide (ann_image_id ann = k)) as [->|Hne].
  - rewrite lookup_insert_eq. split; [done|]. by intros [_ ?].
  - rewrite lookup_insert_ne by done. split; [done|]. by intros [? _].
Qed.

Lemma foldl_group_step_None annotations ita k :
  foldl group_step ita annotations !! k = None <->
  ita !! k = None /\ filter (fun a => ann_image_id a = k) annotations = [].
Proof.
  revert ita. induction annotations as [|a l IH]; intros ita; simpl.
  - split; [done|]. by intros [? _].
  - rewrite IH, group_step_lookup_None, filter_cons.
    destruct (decide (ann_image_id a = k)); split; try done.
    + by intros [[_ ?] _].
    + by intros [_ ?].
    + by intros [[? _] ?].
    + by intros [? ?].
Qed.

Lemma filter_none {A} (P : A -> Prop) `{forall x, Decision (P x)} (l : list A) :
  (forall x, x ∈ l -> ~ P x) -> filter P l = [].
Proof.
  induction l as [|x l IH]; intros Hl; [done|].
  rewrite filter_cons_False by (apply Hl; left). apply IH. intros y Hy. apply Hl. by right.
Qed.

(** X11: the grouping of lines 25-28: after the loader, [imgToAnns] has a
    key exactly for the image ids that occur in the annotation list, and
    the list under a key is the annotations with that image id in the
    order of the annotation list; so every annotation is in the list of its
    image id. *)
Theorem imgToAnns_groups_in_order dataset seed d k :
  let ita := imgToAnns (loader dataset (initial seed d)).2 in
  (ita !! k = None <-> k ∉ (ann_image_id <$> default [] (ds_annotations dataset))) /\
  (forall group, ita !! k = Some group ->
     group = filter (fun a => ann_image_id a = k) (default [] (ds_annotations dataset)) /\
     group ≠ []) /\
  (forall a, a ∈ default [] (ds_annotations dataset) ->
     exists group, ita !! ann_image_id a = Some group /\ a ∈ group).
Proof.
  cbn zeta. destruct (loader_spec dataset (initial seed d)) as (st' & -> & _ & Hi & _).
  cbn [snd]. rewrite Hi. cbn [initial imgToAnns].
  set (l := default [] (ds_annotations dataset)).
  assert (Hnone : foldl group_step ∅ l !! k = None <-> k ∉ (ann_image_id <$> l)).
  { rewrite foldl_group_step_None, lookup_empty. split.
    - intros [_ Hf] (a & -> & Ha)%list_elem_of_fmap.
      assert (a ∈ filter (fun a' => ann_image_id a' = ann_image_id a) l)
        by (by apply list_elem_of_filter).
      rewrite Hf in H. by apply elem_of_nil in H.
    - intros Hnin. split; [done|]. apply filter_none.
      intros a Ha Heq. apply Hnin. apply list_elem_of_fmap. by exists a. }
  assert (Hsome : forall k' group, foldl group_step ∅ l !! k' = Some group ->
            group = filter (fun a => ann_image_id a = k') l /\ group ≠ []).
  { intros k' group Hg. pose proof (group_of_foldl l ∅ k') as Hgo.
    unfold group_of in Hgo. rewrite Hg, lookup_empty in Hgo. simpl in Hgo.
    split; [done|]. intros ->.
    assert (Hn : foldl group_step ∅ l !! k' = None); [|congruence].
    apply foldl_group_step_None. by rewrite lookup_empty. }
  split_and!; [exact Hnone|apply Hsome|].
  intros a Ha. destruct (foldl group_step ∅ l !! ann_image_id a) as [group|] eqn:Hg.
  - exists group. split; [done|]. destruct (Hsome _ _ Hg) as [-> _].
    by apply list_elem_of_filter.
  - apply foldl_group_step_None in Hg as [_ Hf].
    assert (a ∈ filter (fun a' => ann_image_id a' = ann_image_id a) l)
      by (by apply list_elem_of_filter).
    rewrite Hf in H. by apply elem_of_nil in H.
Qed.

Lemma foldl_insert_lookup {A} (key : A -> Z) (l : list A) (m : gmap Z A) k :
  foldl (fun m x => <[key x := x]> m) m l !! k =
  match last (filter (fun x => key x = k) l) with
  | Some x => Some x
  | None => m !! k
  end.
Proof.
  induction l as [|x l IH] using rev_ind; [done|].
  rewrite foldl_app, filter_app, filter_cons, filter_nil. cbn [foldl].
  destruct (decide (key x = k)) as [<-|Hne].
  - by rewrite lookup_insert_eq, last_snoc.
  - by rewrite lookup_insert_ne, app_nil_r.
Qed.

Lemma loader_by_id dataset st :
  anns (loader dataset st).2 =
    foldl (fun m a => <[ann_id a := a]> m) (anns st) (default [] (ds_annotations dataset)) /\
  imgs (loader dataset st).2 =
    foldl (fun m img => <[img_id img := img]> m) (imgs st) (default [] (ds_images dataset)).
Proof.
  unfold loader.
  set (st1 := foldl (fun s ann =>
    set_anns (insert (ann_id ann) ann) (set_imgToAnns (fun ita => group_step ita ann) s))
    st (default [] (ds_annotations dataset))).
  assert (H1 : match ds_annotations dataset with
               | Some annotations =>
                   for_ annotations (fun ann =>
                     imgToAnns_append (ann_image_id ann) ann ;;;
                     modify (set_anns (insert (ann_id ann) ann)))
               | None => ret tt
               end st = (Ok tt, st1)).
  { subst st1. destruct (ds_annotations dataset) as [l|]; simpl; [|done].
    rewrite <- (for_modify l (fun ann s =>
      set_anns (insert (ann_id ann) ann) (set_imgToAnns (fun ita => group_step ita ann) s))).
    apply for_ext. intros x s. by rewrite bind_unfold, imgToAnns_append_eq. }
  rewrite bind_unfold, H1.
  set (st2 := foldl (fun s img => set_imgs (insert (img_id img) img) s) st1
                (default [] (ds_images dataset))).
  assert (H2 : match ds_images dataset with
               | Some images =>
                   for_ images (fun img => modify (set_imgs (insert (img_id img) img)))
               | None => ret tt
               end st1 = (Ok tt, st2)).
  { subst st2. destruct (ds_images dataset) as [l|]; simpl; [|done]. by rewrite for_modify. }
  rewrite bind_unfold, H2.
  set (st3 := foldl (fun s ic => set_cats (fun m => remap_step m ic) s) st2
                (enumerate (default [] (ds_categories dataset)))).
  assert (H3 : match ds_categories dataset with
               | Some categories =>
                   for_ (enumerate categories) (fun ic =>
                     modify (set_cats (insert (cat_id ic.2) (Z.of_nat ic.1 + 1)%Z)))
               | None => ret tt
               end st2 = (Ok tt, st3)).
  { subst st3. destruct (ds_categories dataset) as [l|]; simpl; [|done].
    by rewrite for_modify. }
  rewrite H3. cbn [snd]. subst st3 st2 st1. split.
  - rewrite (foldl_frame anns) by done. rewrite (foldl_frame anns) by done.
    by rewrite (foldl_proj anns _ (fun m a => <[ann_id a := a]> m)).
  - rewrite (foldl_frame imgs) by done.
    rewrite (foldl_proj imgs _ (fun m img => <[img_id img := img]> m)) by done.
    f_equal. by rewrite (foldl_frame imgs).
Qed.

(** X12: the by-id dictionaries of lines 28 and 30-32: after the loader,
    [imgs[k]] is the last entry of the images list with id [k] and
    [anns[k]] the last annotation with id [k] (a later entry with the same
    id overwrites an earlier one); an id that does not occur is not a key. *)
Theorem by_id_maps_keep_last dataset seed d k :
  imgs (loader dataset (initial seed d)).2 !! k =
    last (filter (fun img => img_id img = k) (default [] (ds_images dataset))) /\
  anns (loader dataset (initial seed d)).2 !! k =
    last (filter (fun a => ann_id a = k) (default [] (ds_annotations dataset))).
Proof.
  destruct (loader_by_id dataset (initial seed d)) as [-> ->].
  rewrite !foldl_insert_lookup. cbn [initial imgs anns]. rewrite !lookup_empty.
  split; by destruct (last _).
Qed.

(** ** Runs that differ in what is not read *)

Lemma build_all_mono E E' m groups in_img_path i images :
  (forall p b, image_files E p = Some b -> image_files E' p = Some b) ->
  (build_all E m groups in_img_path i images).1 `prefix_of`
  (build_all E' m groups in_img_path i images).1.
Proof.
  intros Hsub. revert i. induction images as [|img images IH]; intros i; simpl; [done|].
  unfold build at 1.
  destruct (image_files E (path_join in_img_path (img_file_name img))) as [b|] eqn:Hb;
    [|apply prefix_nil].
  unfold build. rewrite (Hsub _ _ Hb).
  destruct (labels_of m (groups (img_id img))); simpl; [|done].
  apply prefix_cons, IH.
Qed.

(** X13: a run that stopped leaves a prefix of what it writes once more
    image files can be read: if every image file readable in one
    environment is readable with the same bytes in another, the records of
    the first run are a prefix of the records of the second. *)
Theorem more_files_extend_output E E' seed d a0 in_path in_img_path out_path rest dataset :
  argv E = a0 :: in_path :: in_img_path :: out_path :: rest ->
  json_files E in_path = JsonParsed dataset ->
  argv E' = argv E ->
  json_files E' in_path = JsonParsed dataset ->
  (forall p b, image_files E p = Some b -> image_files E' p = Some b) ->
  output_records E seed d out_path `prefix_of` output_records E' seed d out_path.
Proof.
  intros Hargv Hjson Hargv' Hjson' Hsub. unfold output_records.
  destruct (run_obs_parts E seed d) as (_ & _ & ->).
  destruct (run_obs_parts E' seed d) as (_ & _ & ->).
  unfold run_obs, shuffle_flag. rewrite Hargv', Hargv, Hjson, Hjson'. unfold recordio_obs.
  fold (uri (container out_path)).
  destruct (ds_images dataset) as [images|]; cbn [snd];
    rewrite !written_records by apply container_paths_ne; [|done].
  by apply build_all_mono.
Qed.

Lemma more_files_extend_output_example :
  output_records MissingImage.env [] ∅ "out" `prefix_of`
  output_records (mkEnv (argv MissingImage.env) (json_files MissingImage.env)
                    (image_files DuplicateId.env)) [] ∅ "out".
Proof.
  apply (more_files_extend_output MissingImage.env
    (mkEnv (argv MissingImage.env) (json_files MissingImage.env) (image_files DuplicateId.env))
    [] ∅ "create_recordio_coco.py" "ann.json" "img" "out" [] MissingImage.dataset
    eq_refl eq_refl eq_refl eq_refl).
  intros p b. simpl. case_bool_decide; [done|discriminate].
Defined.

Lemma remap_from_ids n categories categories' m :
  cat_id <$> categories' = cat_id <$> categories ->
  remap_from n categories' m = remap_from n categories m.
Proof.
  revert n m categories'. induction categories as [|c cs IH]; intros n m [|c' cs'] Hids;
    try done.
  injection Hids as Hc Hcs. unfold remap_from. simpl. unfold remap_step at 2 4. simpl.
  rewrite Hc. apply IH. done.
Qed.

Lemma labels_of_category_ids m group group' :
  ann_category_id <$> group' = ann_category_id <$> group ->
  labels_of m group' = labels_of m group.
Proof.
  revert group'. induction group as [|a g IH]; intros [|a' g'] Hids; try done.
  injection Hids as Ha Hg. simpl. rewrite Ha, (IH g' Hg). done.
Qed.

Lemma filter_same_reads (l l' : list Annotation) k :
  (fun a => (ann_image_id a, ann_category_id a, ann_bbox a)) <$> l' =
  (fun a => (ann_image_id a, ann_category_id a, ann_bbox a)) <$> l ->
  ann_category_id <$> filter (fun a => ann_image_id a = k) l' =
    ann_category_id <$> filter (fun a => ann_image_id a = k) l /\
  ann_bbox <$> filter (fun a => ann_image_id a = k) l' =
    ann_bbox <$> filter (fun a => ann_image_id a = k) l.
Proof.
  revert l'. induction l as [|a l IH]; intros [|a' l'] Heq; try done.
  injection Heq as Hi Hc Hb Hl. destruct (IH l' Hl) as [IHc IHb].
  rewrite !filter_cons, Hi.
  destruct (decide (ann_image_id a = k)); [|done].
  rewrite !fmap_cons, Hc, Hb, IHc, IHb. done.
Qed.

(** X14: of an annotation the run reads the image id, the category id and
    the box, of a category the id: two documents with the same images list
    whose annotations agree on these three fields and whose categories
    agree on the ids, position by position, give the same run; annotation
    ids and category names are never observed. *)
Theorem unread_fields_unobserved E E' seed d a0 in_path in_img_path out_path rest
    dataset dataset' :
  argv E = a0 :: in_path :: in_img_path :: out_path :: rest ->
  json_files E in_path = JsonParsed dataset ->
  argv E' = argv E ->
  image_files E' = image_files E ->
  json_files E' in_path = JsonParsed dataset' ->
  ds_images dataset' = ds_images dataset ->
  (fun a => (ann_image_id a, ann_category_id a, ann_bbox a)) <$>
      default [] (ds_annotations dataset') =
    (fun a => (ann_image_id a, ann_category_id a, ann_bbox a)) <$>
      default [] (ds_annotations dataset) ->
  cat_id <$> default [] (ds_categories dataset') =
    cat_id <$> default [] (ds_categories dataset) ->
  observe (run E' seed d) = observe (run E seed d).
Proof.
  intros Hargv Hjson Hargv' Himg Hjson' Himages Hanns Hcats. rewrite Hargv in Hargv'.
  rewrite (main_spec E seed d _ _ _ _ _ _ Hargv Hjson).
  rewrite (main_spec E' seed d _ _ _ _ _ _ Hargv' Hjson').
  rewrite Hargv, Hargv', (recordio_obs_env E E') by done.
  rewrite !loaded_cats_eq, (remap_from_ids _ _ _ _ Hcats).
  unfold recordio_obs. rewrite Himages. destruct (ds_images dataset) as [images|]; [|done].
  set (order := processing_order _ seed images). set (m := remap_from 0 _ ∅).
  assert (Hb : build_all E m (image_annotations dataset') in_img_path 0 order =
               build_all E m (image_annotations dataset) in_img_path 0 order);
    [|by rewrite Hb].
  generalize 0. induction order as [|img order IH]; intros i; simpl; [done|].
  assert (Hbuild : build E m (image_annotations dataset') in_img_path i img =
                   build E m (image_annotations dataset) in_img_path i img).
  { unfold build, numeric, image_annotations.
    destruct (filter_same_reads _ _ (img_id img) Hanns) as [Hc Hbb].
    by rewrite (labels_of_category_ids _ _ _ Hc), Hbb. }
  by rewrite Hbuild, IH.
Qed.

Lemma unread_fields_unobserved_example :
  observe (run (DanglingAnnotation.env
      (mkDataset (Some [mkImage 1 "a.jpg" 10 20])
                 (Some [mkAnnotation 77 1 5 [1; 2; 3; 4]%Z])
                 (Some [mkCategory 5 "renamed"]))) [] ∅) =
  observe (run (DanglingAnnotation.env Example.dataset) [] ∅).
Proof.
  exact (unread_fields_unobserved
    (DanglingAnnotation.env Example.dataset)
    (DanglingAnnotation.env
      (mkDataset (Some [mkImage 1 "a.jpg" 10 20])
                 (Some [mkAnnotation 77 1 5 [1; 2; 3; 4]%Z])
                 (Some [mkCategory 5 "renamed"])))
    [] ∅ "create_recordio_coco.py" "ann.json" "img" "out" [] Example.dataset _
    eq_refl eq_refl eq_refl eq_refl eq_refl eq_refl eq_refl eq_refl).
Defined.

(** ** Edge cases of the loop *)




(** X16: an empty images list: the run completes, prints the banner only
    and leaves both container files created and empty, whatever the
    annotations, the categories and the shuffle argument. *)
Theorem empty_images_list E seed d a0 in_path in_img_path out_path rest dataset :
  argv E = a0 :: in_path :: in_img_path :: out_path :: rest ->
  json_files E in_path = JsonParsed dataset ->
  ds_images dataset = Some [] ->
  (run E seed d).1 = Ok tt /\
  stdout (run E seed d).2 = banner in_path in_img_path out_path (shuffle_flag E) /\
  disk (run E seed d).2 !! path_join out_path "coco.rec" = Some (RecFile []) /\
  disk (run E seed d).2 !! path_join out_path "coco.idx" = Some (IdxFile []).
Proof.
  intros Hargv Hjson Himages.
  destruct (run_output E seed d _ _ _ _ _ _ _ Hargv Hjson Himages)
    as (Hout & _ & _ & Hstd & Hdisk).
  assert (Horder : processing_order (shuffle_flag E) seed [] = []) by (by destruct (shuffle_flag E)).
  rewrite Horder in Hout, Hstd, Hdisk. cbn [build_all fst snd length] in Hout, Hstd, Hdisk.
  rewrite Hout, Hstd, Hdisk. split_and!.
  - done.
  - apply app_nil_r.
  - unfold written. rewrite lookup_insert_ne by apply container_paths_ne.
    apply lookup_insert_eq.
  - unfold written. apply lookup_insert_eq.
Qed.

Lemma empty_images_list_example :
  (run (DanglingAnnotation.env (mkDataset (Some []) None None)) [] ∅).1 = Ok tt.
Proof.
  exact (proj1 (empty_images_list (DanglingAnnotation.env (mkDataset (Some []) None None))
    [] ∅ "create_recordio_coco.py" "ann.json" "img" "out" []
    (mkDataset (Some []) None None) eq_refl eq_refl eq_refl)).
Defined.

Lemma labels_of_first_unknown m g1 a g2 :
  labelled m g1 -> m !! ann_category_id a = None ->
  labels_of m (g1 ++ a :: g2) = Raise (KeyError_int (ann_category_id a)).
Proof.
  intros Hg1 Ha. induction Hg1 as [|a1 g1 [l Hl] _ IH]; simpl.
  - by rewrite Ha.
  - by rewrite Hl, IH.
Qed.

(** X17: which key the [KeyError] of line 59 names: the category id of the
    first annotation of the image, in annotation order, whose category is
    not in the category list. *)
Theorem first_unknown_category_is_raised E seed d a0 in_path in_img_path out_path rest
    dataset images pre img post g1 ann g2 :
  argv E = a0 :: in_path :: in_img_path :: out_path :: rest ->
  json_files E in_path = JsonParsed dataset ->
  ds_images dataset = Some images ->
  processing_order (shuffle_flag E) seed images = pre ++ img :: post ->
  Forall (buildable E dataset in_img_path) pre ->
  readable E in_img_path img ->
  image_annotations dataset (img_id img) = g1 ++ ann :: g2 ->
  Forall (fun a => ann_category_id a ∈ (cat_id <$> default [] (ds_categories dataset))) g1 ->
  (ann_category_id ann ∉ (cat_id <$> default [] (ds_categories dataset))) ->
  (run E seed d).1 = Raise (KeyError_int (ann_category_id ann)).
Proof.
  intros Hargv Hjson Himages Horder Hpre [imgData Hfile] Hgroup Hg1 Hann.
  refine (proj1 (run_stops_at E seed d _ _ _ _ _ _ _ Hargv Hjson Himages pre img post
    (KeyError_int (ann_category_id ann)) Horder Hpre _)).
  unfold build. rewrite Hfile, Hgroup, labels_of_first_unknown; [done| |].
  - unfold labelled. eapply Forall_impl; [exact Hg1|]. intros a Ha. simpl in Ha.
    destruct (loaded_cats dataset !! ann_category_id a) eqn:Hl; [by eexists|].
    by apply loaded_cats_None in Hl.
  - by apply loaded_cats_None.
Qed.

Lemma first_unknown_category_is_raised_example :
  (7%Z ∉ (cat_id <$> default [] (ds_categories UnknownCategory.dataset))) /\
  (run UnknownCategory.env [] ∅).1 = Raise (KeyError_int 7).
Proof.
  assert (Hpre : Forall (buildable UnknownCategory.env UnknownCategory.dataset "img")
                   [mkImage 1 "a.jpg" 10 20]).
  { apply Forall_singleton. split.
    - by eexists.
    - unfold labelled. vm_compute. apply Forall_singleton. by eexists. }
  assert (Hread : readable UnknownCategory.env "img" (mkImage 2 "a.jpg" 10 20))
    by (by eexists).
  assert (Hcat : 7%Z ∉ (cat_id <$> default [] (ds_categories UnknownCategory.dataset))).
  { simpl. intros Hin%list_elem_of_singleton. discriminate. }
  split; [exact Hcat|].
  exact (first_unknown_category_is_raised UnknownCategory.env [] ∅
    "create_recordio_coco.py" "ann.json" "img" "out" [] UnknownCategory.dataset
    [mkImage 1 "a.jpg" 10 20; mkImage 2 "a.jpg" 10 20]
    [mkImage 1 "a.jpg" 10 20] (mkImage 2 "a.jpg" 10 20) []
    [] (mkAnnotation 2 2 7 [5; 6; 7; 8]%Z) []
    eq_refl eq_refl eq_refl eq_refl Hpre Hread eq_refl (Forall_nil_2 _) Hcat).
Defined.
